(** * bib_to_obsidian: a shallow embedding of [bib_to_obsidian.py]

    The script turns the entries of BibTeX files into Markdown notes.
    This development embeds its functions and checks the statements of
    its specification against them.

    Python strings are sequences of Unicode code points and are modelled
    as lists of [N].  The run-time library the script relies on
    ([str.strip], [str.split], [str.title], [re.sub], [re.split]) is
    modelled in the modules [PyStr] and [Re]; the file system and the
    [bibtexparser] library are the fields of an environment record. *)

From Stdlib Require Import NArith String Ascii List Bool Lia.
From stdpp Require Import base option list countable gmap.
Import ListNotations.

Local Open Scope N_scope.

(* ================================================================== *)
(** ** Python strings *)
(* ================================================================== *)

Module PyStr.

Abbreviation char := N.
Abbreviation str := (list N).

(** A literal of the source, written with ASCII characters only. *)
Definition lit (s : string) : str :=
  List.map N_of_ascii (list_ascii_of_string s).

Definition nl : char := 10.
Definition space : char := 32.

Definition is_nl (c : char) : bool := c =? nl.

(** [str.isspace] on one code point; also the class [\s] of [re] on
    [str] patterns, and what [str.strip()] and [str.split()] remove. *)
Definition isspace (c : char) : bool :=
  ((0x09 <=? c) && (c <=? 0x0D)) || ((0x1C <=? c) && (c <=? 0x1F))
  || (c =? 0x20) || (c =? 0x85) || (c =? 0xA0) || (c =? 0x1680)
  || ((0x2000 <=? c) && (c <=? 0x200A))
  || (c =? 0x2028) || (c =? 0x2029) || (c =? 0x202F) || (c =? 0x205F)
  || (c =? 0x3000).

Fixpoint drop_while (p : char -> bool) (s : str) : str :=
  match s with
  | [] => []
  | c :: s' => if p c then drop_while p s' else s
  end.

Fixpoint take_while (p : char -> bool) (s : str) : str :=
  match s with
  | [] => []
  | c :: s' => if p c then c :: take_while p s' else []
  end.

Definition lstrip (s : str) : str := drop_while isspace s.
Definition rstrip (s : str) : str := rev (drop_while isspace (rev s)).

(** [s.strip()] *)
Definition strip (s : str) : str := rstrip (lstrip s).

(** [s[:n]] for [n >= 0] *)
Definition slice_to (n : nat) (s : str) : str := firstn n s.

(** Truth value of a string: non-empty. *)
Definition truthy (s : str) : bool :=
  match s with [] => false | _ :: _ => true end.

Definition str_eqb (a b : str) : bool :=
  if decide (a = b) then true else false.

(** [s.replace(old, new)] for one-character [old] and [new]. *)
Definition replace_char (old new : char) (s : str) : str :=
  List.map (fun c => if c =? old then new else c) s.

(** [sep.join(parts)] *)
Fixpoint join (sep : str) (parts : list str) : str :=
  match parts with
  | [] => []
  | [p] => p
  | p :: ps => p ++ sep ++ join sep ps
  end.

(** [s.split()]: the maximal runs of characters that are not
    whitespace.  [cur] is the run being read, in reverse. *)
Fixpoint split_ws_from (cur : str) (s : str) : list str :=
  match s with
  | [] => match cur with [] => [] | _ => [rev cur] end
  | c :: s' =>
      if isspace c
      then match cur with
           | [] => split_ws_from [] s'
           | _ => rev cur :: split_ws_from [] s'
           end
      else split_ws_from (c :: cur) s'
  end.

Definition split_ws (s : str) : list str := split_ws_from [] s.

(** First occurrence of the literal [sep] in [s]: the text before it
    and the text after it. *)
Fixpoint strip_prefix (sep s : str) : option str :=
  match sep, s with
  | [], _ => Some s
  | _ :: _, [] => None
  | a :: sep', c :: s' => if a =? c then strip_prefix sep' s' else None
  end.

Fixpoint find_sep (sep s : str) : option (str * str) :=
  match strip_prefix sep s with
  | Some rest => Some ([], rest)
  | None =>
      match s with
      | [] => None
      | c :: s' =>
          match find_sep sep s' with
          | Some (pre, rest) => Some (c :: pre, rest)
          | None => None
          end
      end
  end.

(** [s.split(sep, maxsplit)] for a non-empty [sep] (Python raises
    [ValueError] for an empty one; the script passes the literals
    [' and '] and ['-']). *)
Fixpoint split_max (maxsplit : nat) (sep s : str) : list str :=
  match maxsplit with
  | O => [s]
  | S n =>
      match find_sep sep s with
      | Some (pre, rest) => pre :: split_max n sep rest
      | None => [s]
      end
  end.

(** [s.split(sep)]: no limit on the number of splits; a string has at
    most [length s] occurrences of a non-empty separator. *)
Definition split (sep s : str) : list str :=
  split_max (List.length s) sep s.

(** *** Case mapping

    [str.title] reads the Unicode character database.  The database is
    not part of the script; it is a parameter, constrained on the ASCII
    range where its content is fixed. *)

Definition is_ascii (c : char) : bool := c <? 128.
Definition ascii_upper_p (c : char) : bool := (65 <=? c) && (c <=? 90).
Definition ascii_lower_p (c : char) : bool := (97 <=? c) && (c <=? 122).
Definition ascii_alpha (c : char) : bool := ascii_upper_p c || ascii_lower_p c.
Definition ascii_upper (c : char) : char := if ascii_lower_p c then c - 32 else c.
Definition ascii_lower (c : char) : char := if ascii_upper_p c then c + 32 else c.

Class UnicodeCase := {
  is_cased : char -> bool;
  is_case_ignorable : char -> bool;
  to_title_full : char -> str;
  to_lower_full : char -> str;
  is_cased_ascii : forall c, is_ascii c = true -> is_cased c = ascii_alpha c;
  to_title_ascii : forall c, is_ascii c = true -> to_title_full c = [ascii_upper c];
  to_lower_ascii : forall c, is_ascii c = true -> to_lower_full c = [ascii_lower c]
}.

(** The database cut down to ASCII: every other code point is uncased
    and maps to itself. *)
Program Definition ascii_case : UnicodeCase := {|
  is_cased c := is_ascii c && ascii_alpha c;
  is_case_ignorable c := false;
  to_title_full c := [if is_ascii c then ascii_upper c else c];
  to_lower_full c := [if is_ascii c then ascii_lower c else c]
|}.
Next Obligation. intros c H. cbn. rewrite H. reflexivity. Qed.
Next Obligation. intros c H. cbn. rewrite H. reflexivity. Qed.
Next Obligation. intros c H. cbn. rewrite H. reflexivity. Qed.

Section Title.
Context {U : UnicodeCase}.

Definition head_cased (s : str) : bool :=
  match s with [] => false | c :: _ => is_cased c end.

(** Final_Sigma context of a capital sigma: a cased letter before it
    and none after it, case-ignorable characters skipped. *)
Definition final_sigma (before_rev after : str) : bool :=
  head_cased (drop_while is_case_ignorable before_rev)
  && negb (head_cased (drop_while is_case_ignorable after)).

Definition lower_at (before_rev : str) (c : char) (after : str) : str :=
  if c =? 0x3A3
  then [if final_sigma before_rev after then 0x3C2 else 0x3C3]
  else to_lower_full c.

Fixpoint do_title (before_rev : str) (previous_is_cased : bool) (s : str) : str :=
  match s with
  | [] => []
  | c :: rest =>
      (if previous_is_cased then lower_at before_rev c rest
       else to_title_full c)
      ++ do_title (c :: before_rev) (is_cased c) rest
  end.

(** [s.title()] *)
Definition to_title (s : str) : str := do_title [] false s.
End Title.

End PyStr.
Import PyStr.

(* ================================================================== *)
(** ** Regular expressions *)
(* ================================================================== *)

(** The patterns of the script are sequences of character classes, each
    matched once or under a greedy star: the class of the nine characters
    that are illegal in a file name, the class of the two braces, the class
    of semicolon and comma, and a line feed between two starred
    whitespace classes.  The matcher is the backtracking one of [re]: a star
    takes as many characters as it can and gives them back one at a time
    when the rest of the pattern fails. *)

Module Re.

Inductive item :=
| One (cls : char -> bool)
| Star (cls : char -> bool).

Definition pattern := list item.

Fixpoint match_star (cls : char -> bool) (k : str -> option str) (s : str)
  : option str :=
  match s with
  | [] => k []
  | c :: s' =>
      if cls c
      then match match_star cls k s' with
           | Some r => Some r
           | None => k s
           end
      else k s
  end.

Fixpoint match_items (p : pattern) (k : str -> option str) (s : str)
  : option str :=
  match p with
  | [] => k s
  | One cls :: p' =>
      match s with
      | c :: s' => if cls c then match_items p' k s' else None
      | [] => None
      end
  | Star cls :: p' => match_star cls (match_items p' k) s
  end.

(** A match of [p] at the start of [s]: what follows the match.  With
    [must_advance] an empty match is refused. *)
Definition match_at (p : pattern) (must_advance : bool) (s : str) : option str :=
  match_items p
    (fun r => if must_advance && (List.length r =? List.length s)%nat
              then None else Some r) s.

(** Leftmost match at or after the start of [s]: the text before the
    match, the text after it, and whether the match is empty. *)
Fixpoint search (p : pattern) (must_advance : bool) (s : str)
  : option (str * str * bool) :=
  match match_at p must_advance s with
  | Some r => Some ([], r, (List.length r =? List.length s)%nat)
  | None =>
      match s with
      | [] => None
      | c :: s' =>
          match search p false s' with
          | Some (pre, r, e) => Some (c :: pre, r, e)
          | None => None
          end
      end
  end.

(** The loop of [re.sub]: at most [count] replacements. *)
Fixpoint sub_loop (count : nat) (p : pattern) (repl : str)
    (must_advance : bool) (s : str) : str :=
  match count with
  | O => s
  | S n =>
      match search p must_advance s with
      | Some (pre, r, e) => pre ++ repl ++ sub_loop n p repl e r
      | None => s
      end
  end.

(** The loop of [re.split]: at most [maxsplit] splits. *)
Fixpoint split_loop (maxsplit : nat) (p : pattern)
    (must_advance : bool) (s : str) : list str :=
  match maxsplit with
  | O => [s]
  | S n =>
      match search p must_advance s with
      | Some (pre, r, e) => pre :: split_loop n p e r
      | None => [s]
      end
  end.

(** Every match starts at a position of its own or is the one
    non-empty match after an empty one, so a string of length [n] has
    at most [2 * n + 1] of them. *)
Definition all_matches (s : str) : nat := (2 * List.length s + 1)%nat.

(** [re.sub(p, repl, s)] *)
Definition sub (p : pattern) (repl s : str) : str :=
  sub_loop (all_matches s) p repl false s.

(** [re.split(p, s)] *)
Definition split (p : pattern) (s : str) : list str :=
  split_loop (all_matches s) p false s.

Definition one_of (cs : str) : char -> bool :=
  fun c => existsb (N.eqb c) cs.

End Re.

(* ================================================================== *)
(** ** The helper functions of the script *)
(* ================================================================== *)

(** The class of [sanitize_filename]: backslash, slash, star, question
    mark, colon, double quote, less-than, greater-than, bar. *)
Definition illegal_chars : str := [92; 47; 42; 63; 58; 34; 60; 62; 124].
Definition re_illegal : Re.pattern := [Re.One (Re.one_of illegal_chars)].

(** The class of [clean_title]: the two braces. *)
Definition re_braces : Re.pattern := [Re.One (Re.one_of (lit "{}"))].

(** The class of [format_tags]: semicolon and comma. *)
Definition re_semi_comma : Re.pattern := [Re.One (Re.one_of (lit ";,"))].

(** Whitespace, a line feed, whitespace: the pattern of
    [parse_authors] and of the abstract. *)
Definition re_newline_run : Re.pattern :=
  [Re.Star isspace; Re.One is_nl; Re.Star isspace].

Definition sanitize_filename (name : str) : str :=
  let sanitized := Re.sub re_illegal [] name in
  strip (slice_to 150 sanitized).

Definition clean_title (title : str) : str :=
  Re.sub re_braces [] title.


Section Tags.
Context {U : UnicodeCase}.

Definition hyphen : char := 45.
Definition slash : char := 47.

(** One turn of the loop of [format_tags]. *)
Definition format_tags_step (tags : list str) (kw : str) : list str :=
  if negb (truthy (strip kw)) then tags
  else
    let tag := replace_char hyphen slash (join [] (split_ws (to_title (strip kw)))) in
    tags ++ [tag].

Definition format_tags (keywords_str : str) : list str :=
  if negb (truthy keywords_str) then []
  else
    let kw_list := Re.split re_semi_comma keywords_str in
    fold_left format_tags_step kw_list [].

End Tags.

Definition parse_authors (authors_str : str) : list str :=
  if negb (truthy authors_str) then []
  else
    let cleaned_str := Re.sub re_newline_run [space] authors_str in
    List.map strip (PyStr.split (lit " and ") cleaned_str).

(* ================================================================== *)
(** ** Exceptions, output and the environment *)
(* ================================================================== *)

(** The script tells [IOError] (an alias of [OSError]) from every other
    [Exception]; the text is what formatting the exception prints. *)
Inductive exn :=
| OSError (text : str)
| OtherError (text : str).

Definition exn_text (e : exn) : str :=
  match e with OSError t => t | OtherError t => t end.

Definition is_IOError (e : exn) : bool :=
  match e with OSError _ => true | OtherError _ => false end.

Definition is_Exception (e : exn) : bool := true.

Inductive result (A : Type) :=
| Ok (a : A)
| Raise (e : exn).
Arguments Ok {A} a.
Arguments Raise {A} e.

(** [l[i]] raises [IndexError] out of range. *)
Definition index {A} (l : list A) (i : nat) : result A :=
  match nth_error l i with
  | Some a => Ok a
  | None => Raise (OtherError (lit "list index out of range"))
  end.

(** A parsed entry: a dictionary from field names to values. *)
Abbreviation entry := (gmap str str).

(** [entry.get(key, default)] *)
Definition get (e : entry) (key : string) (default_ : str) : str :=
  default default_ (e !! lit key).

(** What the script prints. *)
Inductive event :=
| Stdout (text : str)
| Stderr (text : str).

(** The collaborators of the script: the file system of [os] and [open],
    and [bibtexparser]. *)
Class Env := {
  world : Type;
  (** [os.path.exists] *)
  path_exists : world -> str -> bool;
  (** [os.path.join] *)
  path_join : str -> str -> str;
  (** [os.makedirs] *)
  makedirs : world -> str -> world * option exn;
  (** opening a path for writing in UTF-8 and writing one string *)
  write_text : world -> str -> str -> world * option exn;
  (** opening a path for reading and [bibtexparser.load]: the entries *)
  load : world -> str -> result (list entry);
  (** [bibtexparser.dumps] of a database that holds one entry *)
  dumps : entry -> result str;
  (** what [print] raises, if anything, when it writes a line to the
      standard output or to the standard error stream: the stream may
      not be able to encode the line, or may be closed *)
  print_raises : world -> event -> option exn
}.

Section Effects.
Context {E : Env}.

Definition state : Type := world * list event.

Definition M (A : Type) : Type := state -> result A * state.

Definition ret {A} (a : A) : M A := fun st => (Ok a, st).

Definition bind {A B} (m : M A) (k : A -> M B) : M B :=
  fun st =>
    match m st with
    | (Ok a, st') => k a st'
    | (Raise e, st') => (Raise e, st')
    end.

Definition lift {A} (r : result A) : M A := fun st => (r, st).

(** Writing a line to a stream: the line is added to what has been
    printed, unless the stream refuses it. *)
Definition emit (ev : event) : M unit :=
  fun st =>
    match print_raises (fst st) ev with
    | None => (Ok tt, (fst st, snd st ++ [ev]))
    | Some x => (Raise x, st)
    end.

(** [print(text)] *)
Definition print (text : str) : M unit := emit (Stdout text).

(** [print(text, file=sys.stderr)] *)
Definition print_err (text : str) : M unit := emit (Stderr text).

(** [try: body except C as e: handler(e)] where [catches] is the class [C]. *)
Definition try_except {A} (body : M A) (catches : exn -> bool)
    (handler : exn -> M A) : M A :=
  fun st =>
    match body st with
    | (Ok a, st') => (Ok a, st')
    | (Raise e, st') => if catches e then handler e st' else (Raise e, st')
    end.

Definition do_write (path content : str) : M unit :=
  fun st =>
    match write_text (fst st) path content with
    | (w, None) => (Ok tt, (w, snd st))
    | (w, Some e) => (Raise e, (w, snd st))
    end.

Definition do_makedirs (path : str) : M unit :=
  fun st =>
    match makedirs (fst st) path with
    | (w, None) => (Ok tt, (w, snd st))
    | (w, Some e) => (Raise e, (w, snd st))
    end.

Definition do_load (path : str) : M (list entry) :=
  fun st => (load (fst st) path, st).

Definition do_exists (path : str) : M bool :=
  fun st => (Ok (path_exists (fst st) path), st).

(** [for x in xs: body(x)] *)
Fixpoint for_each {A} (xs : list A) (body : A -> M unit) : M unit :=
  match xs with
  | [] => ret tt
  | x :: xs' => bind (body x) (fun _ => for_each xs' body)
  end.

End Effects.

Notation "x <- m ;; k" := (bind m (fun x => k))
  (at level 100, m at next level, right associativity).
Notation "m ;;; k" := (bind m (fun _ => k))
  (at level 100, right associativity).

(* ================================================================== *)
(** ** From an entry to a note *)
(* ================================================================== *)

(** The local variables of [create_literature_note_from_entry] after its
    extraction and cleaning steps. *)
Record fields := {
  bib_key : str;
  title : str;
  journal : str;
  doi : str;
  url : str;
  year : str;
  tags : list str;
  author_list : list str;
  authors_body_formatted : str;
  abstract : str
}.

(** [a or b] on strings whose second operand cannot raise. *)
Definition py_or (a b : str) : str := if truthy a then a else b.

(** The abstract: cleaned when it is not empty. *)
Definition clean_abstract (abstract : str) : str :=
  if truthy abstract
  then strip (Re.sub re_newline_run [space] abstract)
  else abstract.

(** [entry.get('year', '') or entry.get('date', 'n.d.').split('-')[0]] *)
Definition resolve_year (e : entry) : result str :=
  if truthy (get e "year" [])
  then Ok (get e "year" [])
  else index (PyStr.split (lit "-") (get e "date" (lit "n.d."))) 0.

Definition wiki_link (author : str) : str := lit "[[" ++ author ++ lit "]]".

Section Note.
Context {U : UnicodeCase}.

Definition extract (e : entry) : result fields :=
  let bib_key := get e "ID" (lit "no_id") in
  let title := clean_title (get e "title" (lit "No Title")) in
  let journal := py_or (get e "journaltitle" []) (get e "journal" []) in
  let doi := get e "doi" [] in
  let url := get e "url" [] in
  match resolve_year e with
  | Raise x => Raise x
  | Ok year =>
      let tags := format_tags (get e "keywords" []) in
      let author_list := parse_authors (get e "author" []) in
      let authors_body_formatted := join (lit ", ") (List.map wiki_link author_list) in
      let abstract := clean_abstract (get e "abstract" []) in
      Ok {| bib_key := bib_key; title := title; journal := journal;
            doi := doi; url := url; year := year; tags := tags;
            author_list := author_list;
            authors_body_formatted := authors_body_formatted;
            abstract := abstract |}
  end.

End Note.

Definition dq : char := 34.

(** [if cond: md_content += text] *)
Definition when (cond : bool) (text : str) : str := if cond then text else [].

Definition list_item (x : str) : str := lit "  - " ++ x ++ [nl].

(** [if year and year != 'n.d.'] *)
Definition has_year (year : str) : bool :=
  truthy year && negb (str_eqb year (lit "n.d.")).

Definition fm_title (f : fields) : str :=
  lit "title: " ++ [dq] ++ title f ++ [dq; nl].

Definition fm_authors (f : fields) : str :=
  when (match author_list f with [] => false | _ => true end)
       (lit "author:" ++ [nl] ++ concat (List.map list_item (author_list f))).

Definition fm_journal (f : fields) : str :=
  when (truthy (journal f)) (lit "journal: " ++ [dq] ++ journal f ++ [dq; nl]).

Definition year_line (year : str) : str :=
  when (has_year year) (lit "year: " ++ year ++ [nl]).

Definition fm_year (f : fields) : str := year_line (year f).

Definition fm_doi (f : fields) : str :=
  when (truthy (doi f)) (lit "doi: " ++ [dq] ++ doi f ++ [dq; nl]).

Definition fm_url (f : fields) : str :=
  when (truthy (url f)) (lit "url: " ++ url f ++ [nl]).

Definition fm_tags (f : fields) : str :=
  when (match tags f with [] => false | _ => true end)
       (lit "tags:" ++ [nl] ++ concat (List.map list_item (tags f))).

(** The front matter: from the first marker line to the second. *)
Definition front_matter (f : fields) : str :=
  lit "---" ++ [nl]
  ++ fm_title f ++ fm_authors f ++ fm_journal f ++ fm_year f
  ++ fm_doi f ++ fm_url f ++ fm_tags f
  ++ lit "---" ++ [nl; nl].

Definition heading (f : fields) : str := lit "# " ++ title f ++ [nl; nl].

Definition body_year (f : fields) : str :=
  when (has_year (year f)) (lit "- **Year**: " ++ year f ++ [nl]).

Definition body (f : fields) (bibtex : str) : str :=
  heading f
  ++ when (truthy (authors_body_formatted f))
          (lit "- **Authors**: " ++ authors_body_formatted f ++ [nl])
  ++ when (truthy (journal f)) (lit "- **Journal**: " ++ journal f ++ [nl])
  ++ body_year f
  ++ [nl] ++ lit "## TL;DR" ++ [nl; nl]
  ++ lit "> Add a one-sentence summary here." ++ [nl; nl]
  ++ lit "## Abstract" ++ [nl]
  ++ py_or (abstract f) (lit "No abstract available.") ++ [nl; nl]
  ++ lit "## " ++ [0x270D; 0xFE0F] ++ lit " My Notes" ++ [nl; nl]
  ++ lit "> Add your personal notes and thoughts here." ++ [nl; nl; nl]
  ++ lit "## " ++ [0x1F4DA] ++ lit " BibTeX" ++ [nl] ++ lit "```bibtex" ++ [nl]
  ++ bibtex ++ [nl] ++ lit "```" ++ [nl].

Definition md_content (f : fields) (bibtex : str) : str :=
  front_matter f ++ body f bibtex.

Definition file_name (f : fields) : str :=
  sanitize_filename (title f) ++ lit " (" ++ bib_key f ++ lit ").md".

Definition msg_created (output_path : str) : str :=
  [0x2705] ++ lit " Literature note '" ++ output_path
  ++ lit "' created successfully.".

Definition msg_write_error (output_path cause : str) : str :=
  [0x274C] ++ lit " Error writing to file '" ++ output_path ++ lit "': " ++ cause.

Definition msg_not_found (file_path : str) : str :=
  [0x274C] ++ lit " Error: File not found: " ++ file_path.

Definition msg_processing (file_path : str) : str :=
  [nl] ++ lit "--- " ++ [0x1F4D6] ++ lit " Processing file: " ++ file_path
  ++ lit " ---".

Definition msg_no_entries (file_path : str) : str :=
  [0x2139; 0xFE0F] ++ lit " No BibTeX entries found in '" ++ file_path ++ lit "'.".

Definition msg_file_error (file_path cause : str) : str :=
  [0x274C] ++ lit " An error occurred while processing '" ++ file_path
  ++ lit "': " ++ cause.

Definition msg_dir_created (output_dir : str) : str :=
  lit "--- " ++ [0x1F4C2] ++ lit " Output directory created: " ++ output_dir
  ++ lit " ---".

Definition msg_complete : str :=
  [nl] ++ lit "--- " ++ [0x2728] ++ lit " Processing complete ---".

Section Script.
Context {U : UnicodeCase} {E : Env}.

Definition output_path_of (output_dir : str) (f : fields) : str :=
  path_join output_dir (file_name f).

Definition create_literature_note_from_entry (e : entry) (output_dir : str)
  : M unit :=
  f <- lift (extract e) ;;
  bibtex <- lift (dumps e) ;;
  let output_path := output_path_of output_dir f in
  try_except
    (do_write output_path (md_content f bibtex) ;;;
     print (msg_created output_path))
    is_IOError
    (fun x => print_err (msg_write_error output_path (exn_text x))).

Definition process_bib_file (file_path output_dir : str) : M unit :=
  found <- do_exists file_path ;;
  if negb found
  then print_err (msg_not_found file_path)
  else
    print (msg_processing file_path) ;;;
    try_except
      (entries <- do_load file_path ;;
       match entries with
       | [] => print (msg_no_entries file_path)
       | _ =>
           for_each entries
             (fun e => create_literature_note_from_entry e output_dir)
       end)
      is_Exception
      (fun x => print_err (msg_file_error file_path (exn_text x))).

(** [main] after [argparse]: the positional arguments and the value of
    the output directory option. *)
Definition main (bibfiles : list str) (output_dir : str) : M unit :=
  found <- do_exists output_dir ;;
  (if negb found
   then do_makedirs output_dir ;;; print (msg_dir_created output_dir)
   else ret tt) ;;;
  for_each bibfiles (fun p => process_bib_file p output_dir) ;;;
  print msg_complete.

End Script.

(* ================================================================== *)
(** ** An environment in memory *)
(* ================================================================== *)

(** A file system held in a map, with a parser that reads what was
    stored.  It instantiates [Env] for the concrete runs below. *)

Module Mem.

Inductive node :=
| BibFile (entries : list entry)
| Corrupt (cause : str)
| Text (content : str)
| Dir.

Definition fs : Type := gmap str node.

Definition has_nul (path : str) : bool := existsb (N.eqb 0) path.

Definition exists_ (w : fs) (path : str) : bool :=
  match w !! path with Some _ => true | None => false end.

(** [posixpath.join] of two components *)
Definition join_path (a b : str) : str :=
  match b with
  | 47 :: _ => b
  | _ =>
      match rev a with
      | [] => b
      | 47 :: _ => a ++ b
      | _ => a ++ [47] ++ b
      end
  end.

Definition mkdir (w : fs) (path : str) : fs * option exn :=
  (<[path := Dir]> w, None).

(** [open] refuses a path with a NUL character with a [ValueError], and
    a directory with an [OSError]. *)
Definition write (w : fs) (path content : str) : fs * option exn :=
  if has_nul path
  then (w, Some (OtherError (lit "embedded null byte")))
  else
    match w !! path with
    | Some Dir => (w, Some (OSError (lit "[Errno 21] Is a directory")))
    | _ => (<[path := Text content]> w, None)
    end.

Definition read (w : fs) (path : str) : result (list entry) :=
  match w !! path with
  | Some (BibFile entries) => Ok entries
  | Some (Corrupt cause) => Raise (OtherError cause)
  | Some (Text _) => Ok []
  | Some Dir => Raise (OSError (lit "[Errno 21] Is a directory"))
  | None => Raise (OSError (lit "[Errno 2] No such file or directory"))
  end.

Definition field_line (kv : str * str) : str :=
  lit " " ++ fst kv ++ lit " = {" ++ snd kv ++ lit "}," ++ [nl].

(** The writer needs the type and the key of the entry. *)
Definition write_entry (e : entry) : result str :=
  match e !! lit "ENTRYTYPE", e !! lit "ID" with
  | Some t, Some k =>
      Ok (lit "@" ++ t ++ lit "{" ++ k ++ lit "," ++ [nl]
          ++ concat (List.map field_line
               (map_to_list (delete (lit "ENTRYTYPE") (delete (lit "ID") e))))
          ++ lit "}" ++ [nl; nl])
  | _, _ => Raise (OtherError (lit "'ENTRYTYPE'"))
  end.

Definition is_surrogate (c : char) : bool := (0xD800 <=? c) && (c <=? 0xDFFF).

(** A console in UTF-8: the standard output refuses a line with a lone
    surrogate; the standard error stream, which escapes what it cannot
    encode, takes every line. *)
Definition console (w : fs) (ev : event) : option exn :=
  match ev with
  | Stdout text =>
      if existsb is_surrogate text
      then Some (OtherError (lit "'utf-8' codec can't encode character"))
      else None
  | Stderr _ => None
  end.

Definition env : Env := {|
  world := fs;
  path_exists := exists_;
  path_join := join_path;
  makedirs := mkdir;
  write_text := write;
  load := read;
  dumps := write_entry;
  print_raises := console
|}.

End Mem.

(* ================================================================== *)
(** ** The operations in the words of the specification *)
(* ================================================================== *)

(** Putting a character in front of the first piece of a split. *)
Definition push (c : char) (pieces : list str) : list str :=
  match pieces with
  | seg :: segs => (c :: seg) :: segs
  | [] => [[c]]
  end.

(** The segments of [s] between the characters of the class [sep]. *)
Fixpoint segments (sep : char -> bool) (s : str) : list str :=
  match s with
  | [] => [[]]
  | c :: s' => if sep c then [] :: segments sep s' else push c (segments sep s')
  end.

Definition without (cls : char -> bool) (s : str) : str :=
  List.filter (fun c => negb (cls c)) s.

Definition blank (s : str) : bool := forallb isspace s.

Section TagsSpec.
Context {U : UnicodeCase}.

(** A keyword, trimmed, title-cased, without whitespace, with every
    hyphen turned into a slash. *)
Definition tag_of_keyword (kw : str) : str :=
  replace_char hyphen slash (without isspace (to_title (strip kw))).

Definition tags_of_keywords (keywords_str : str) : list str :=
  List.map tag_of_keyword
    (List.filter (fun kw => negb (blank kw)) (segments (Re.one_of (lit ";,")) keywords_str)).

End TagsSpec.

(** The same class of character: both whitespace or both not. *)
Definition same_class (c d : char) : bool := Bool.eqb (isspace c) (isspace d).

(** The maximal runs of [s]: whitespace and other text in turn. *)
Fixpoint runs (s : str) : list str :=
  match s with
  | [] => []
  | c :: s' =>
      match runs s' with
      | (d :: r) :: rs =>
          if same_class c d then (c :: d :: r) :: rs
          else [c] :: (d :: r) :: rs
      | rs => [c] :: rs
      end
  end.

(** A whitespace run with a line feed becomes one space. *)
Definition collapse_run (r : str) : str :=
  if blank r && existsb is_nl r then [space] else r.

Definition collapse_newline_runs (s : str) : str :=
  concat (List.map collapse_run (runs s)).

(** Every whitespace run becomes one space. *)
Definition collapse_whitespace (s : str) : str :=
  concat (List.map (fun r => if blank r then [space] else r) (runs s)).

Definition parse_authors_spec (authors_str : str) : list str :=
  match authors_str with
  | [] => []
  | _ => List.map strip (PyStr.split (lit " and ") (collapse_newline_runs authors_str))
  end.

(** The text of [s] before its first hyphen. *)
Definition before_hyphen (s : str) : str :=
  take_while (fun c => negb (c =? hyphen)) s.

Definition no_space_at_ends (s : str) : Prop :=
  (forall c s', s = c :: s' -> isspace c = false)
  /\ (forall c s', s = s' ++ [c] -> isspace c = false).

Definition lookup_key (e : entry) (key : string) : option str := e !! lit key.

Definition absent (e : entry) (key : string) : Prop := lookup_key e key = None.

(** A field counts as given when its key is in the entry ... *)
Definition given_key (e : entry) (key : string) : Prop :=
  exists v, lookup_key e key = Some v.

(** ... or, read with the truth value of Python, when its value is not
    empty. *)
Definition given_value (e : entry) (key : string) : Prop :=
  exists v, lookup_key e key = Some v /\ v <> [].

(* ================================================================== *)
(** ** The statements that the script does not meet, as they are worded *)
(* ================================================================== *)

(** Year resolution, for a reading [given] of a field that is present. *)
Definition year_claim (given : entry -> string -> Prop) (e : entry) : Prop :=
  (given e "year"%string -> resolve_year e = Ok (get e "year" []))
  /\ (~ given e "year"%string -> given e "date"%string ->
      resolve_year e = Ok (before_hyphen (get e "date" [])))
  /\ (~ given e "year"%string -> ~ given e "date"%string ->
      resolve_year e = Ok (lit "n.d.") /\ year_line (lit "n.d.") = []).

Section Claims.
Context {U : UnicodeCase}.

(** Every absent field becomes an empty string or an empty list. *)
Definition degrades_to_empty (e : entry) (f : fields) : Prop :=
  (absent e "title" -> title f = [])
  /\ (absent e "journaltitle" -> absent e "journal" -> journal f = [])
  /\ (absent e "doi" -> doi f = [])
  /\ (absent e "url" -> url f = [])
  /\ (absent e "year" -> absent e "date" -> year f = [])
  /\ (absent e "keywords" -> tags f = [])
  /\ (absent e "author" -> author_list f = [])
  /\ (absent e "abstract" -> abstract f = []).

Definition transformer_claim (e : entry) : Prop :=
  exists f, extract e = Ok f /\ degrades_to_empty e f.

(** The abstract of the note is the abstract of the entry under a
    reading of the cleaning. *)
Definition abstract_claim (reading : str -> str) (e : entry) : Prop :=
  exists f, extract e = Ok f /\ abstract f = reading (get e "abstract" []).

Context {E : Env}.

(** What the script prints when it gets to the point of writing the
    note of an entry. *)
Definition attempt_event (output_dir : str) (e : entry) (ev : event) : Prop :=
  exists f,
    extract e = Ok f
    /\ (ev = Stdout (msg_created (output_path_of output_dir f))
        \/ exists cause,
             ev = Stderr (msg_write_error (output_path_of output_dir f) cause)).

Definition attempted (output_dir : str) (e : entry) (log : list event) : Prop :=
  exists ev, In ev log /\ attempt_event output_dir e ev.

Definition log_after {A} (r : result A * state) : list event := snd (snd r).
Definition world_after {A} (r : result A * state) : world := fst (snd r).

(** The entries fail, if they do, with an [IOError] of the write (or of
    the line that reports the written note), and the line that reports
    the outcome of each can be printed. [w] is the file system before
    the first entry. *)
Fixpoint io_only_run (output_dir : str) (entries : list entry) (w : world)
  : Prop :=
  match entries with
  | [] => True
  | e :: es =>
      exists f bibtex,
        extract e = Ok f /\ dumps e = Ok bibtex
        /\ let output_path := output_path_of output_dir f in
           let r := write_text w output_path (md_content f bibtex) in
           let failed x :=
             is_IOError x = true
             /\ print_raises (fst r)
                  (Stderr (msg_write_error output_path (exn_text x))) = None in
           match snd r with
           | None =>
               match print_raises (fst r) (Stdout (msg_created output_path)) with
               | None => True
               | Some x => failed x
               end
           | Some x => failed x
           end
           /\ io_only_run output_dir es (fst r)
  end.





(** The entries of a file, one after the other. *)
Definition process_entries (entries : list entry) (output_dir : str) : M unit :=
  for_each entries (fun e => create_literature_note_from_entry e output_dir).

(** The loop of [main] over the input files. *)
Definition process_files (bibfiles : list str) (output_dir : str) : M unit :=
  for_each bibfiles (fun p => process_bib_file p output_dir).

(** Every record of a file is attempted, whatever happens to the
    others. *)
Definition isolation_claim (st : state) (file_path output_dir : str) : Prop :=
  forall entries,
    path_exists (fst st) file_path = true ->
    load (fst st) file_path = Ok entries ->
    forall e, In e entries ->
      attempted output_dir e (log_after (process_bib_file file_path output_dir st)).



End Claims.

(* ================================================================== *)
(** ** Concrete runs *)
(* ================================================================== *)

Module Runs.

Definition article (key title_ : str) : entry :=
  {[ lit "ENTRYTYPE" := lit "article" ; lit "ID" := key ; lit "title" := title_ ]}.

Definition first_entry : entry := article (lit "a") (lit "First").
Definition second_entry : entry := article (lit "b") (lit "Second").

(** An entry whose title holds a NUL character. *)
Definition nul_entry : entry := article (lit "n") [78; 0; 85].

Definition refs : str := lit "refs.bib".
Definition more : str := lit "more.bib".
Definition notes : str := lit "notes".

(** One input file with two entries, and the output directory. *)
Definition fs_two : Mem.fs :=
  {[ refs := Mem.BibFile [first_entry; second_entry] ; notes := Mem.Dir ]}.

(** The same, with a directory where the first note is to be written. *)
Definition fs_blocked : Mem.fs :=
  <[ lit "notes/First (a).md" := Mem.Dir ]> fs_two.

(** The file whose first entry has the NUL character in its title. *)
Definition fs_nul : Mem.fs :=
  {[ refs := Mem.BibFile [nul_entry; second_entry] ; notes := Mem.Dir ]}.

(** The same, with a second input file that the parser rejects. *)
Definition broken : str := lit "broken.bib".
Definition fs_broken : Mem.fs :=
  <[ broken := Mem.Corrupt (lit "Expecting an entry") ]> fs_two.

Definition start (w : Mem.fs) : @state Mem.env := (w, []).

End Runs.

(* ================================================================== *)
(** ** Notions for the further properties *)
(* ================================================================== *)

(** The keys that [create_literature_note_from_entry] reads. *)
Definition known_keys : list str :=
  List.map lit
    ["ID"; "title"; "journaltitle"; "journal"; "doi"; "url"; "year"; "date";
     "keywords"; "author"; "abstract"]%string.

(** [sep] is a part of [s]. *)
Definition occurs (sep s : str) : Prop :=
  exists pre rest, s = pre ++ sep ++ rest.

(** A character between two keywords. *)
Definition is_separator (c : char) : bool := Re.one_of (lit ";,") c.

Module MemRO.

(** The file system of [Mem] when nothing can be created: [os.makedirs]
    and every write fail with a permission error. *)
Definition mkdir (w : Mem.fs) (path : str) : Mem.fs * option exn :=
  (w, Some (OSError (lit "[Errno 13] Permission denied"))).

Definition write (w : Mem.fs) (path content : str) : Mem.fs * option exn :=
  (w, Some (OSError (lit "[Errno 13] Permission denied"))).

Definition env : Env := {|
  world := Mem.fs;
  path_exists := Mem.exists_;
  path_join := Mem.join_path;
  makedirs := mkdir;
  write_text := write;
  load := Mem.read;
  dumps := Mem.write_entry;
  print_raises := Mem.console
|}.

End MemRO.

Module AsciiOut.

(** The file system of [Mem] with a standard output in ASCII: it refuses
    every line with another character, as the lines that the script
    starts with a pictogram. *)
Definition console (w : Mem.fs) (ev : event) : option exn :=
  match ev with
  | Stdout text =>
      if forallb is_ascii text
      then None
      else Some (OtherError (lit "'ascii' codec can't encode character"))
  | Stderr _ => None
  end.

Definition env : Env := {|
  world := Mem.fs;
  path_exists := Mem.exists_;
  path_join := Mem.join_path;
  makedirs := Mem.mkdir;
  write_text := Mem.write;
  load := Mem.read;
  dumps := Mem.write_entry;
  print_raises := console
|}.

End AsciiOut.

Module MoreRuns.

(** An input file without entries, and the output directory. *)
Definition fs_empty : Mem.fs :=
  {[ Runs.refs := Mem.BibFile [] ; Runs.notes := Mem.Dir ]}.

(** An input file with one entry; the output directory does not exist. *)
Definition fs_no_dir : Mem.fs :=
  {[ Runs.refs := Mem.BibFile [Runs.first_entry] ]}.

End MoreRuns.

(* ================================================================== *)
(** * Properties *)
(* ================================================================== *)

(** ** The loops of [re.sub] and [re.split] *)

Section ReLoops.
Variable p : Re.pattern.

Lemma search_hit adv s r :
  Re.match_at p adv s = Some r ->
  Re.search p adv s = Some ([], r, (length r =? length s)%nat).
Proof. intros H. destruct s; simpl; rewrite H; reflexivity. Qed.

Lemma search_miss adv c s :
  Re.match_at p adv (c :: s) = None ->
  Re.search p adv (c :: s) =
    match Re.search p false s with
    | Some (pre, r, e) => Some (c :: pre, r, e)
    | None => None
    end.
Proof. intros H. simpl. rewrite H. reflexivity. Qed.

Lemma sub_loop_hit n repl adv s r :
  Re.match_at p adv s = Some r ->
  Re.sub_loop (S n) p repl adv s =
    repl ++ Re.sub_loop n p repl (length r =? length s)%nat r.
Proof. intros H. cbn [Re.sub_loop]. rewrite (search_hit _ _ _ H). reflexivity. Qed.

Lemma sub_loop_miss n repl adv c s :
  Re.match_at p adv (c :: s) = None ->
  Re.sub_loop (S n) p repl adv (c :: s) = c :: Re.sub_loop (S n) p repl false s.
Proof.
  intros H. cbn [Re.sub_loop]. rewrite (search_miss _ _ _ H).
  destruct (Re.search p false s) as [[[pre r] e]|]; reflexivity.
Qed.

Lemma sub_loop_nil n repl adv :
  Re.match_at p adv [] = None -> Re.sub_loop n p repl adv [] = [].
Proof. intros H. destruct n; simpl; [reflexivity|]. rewrite H. reflexivity. Qed.

Lemma split_loop_hit n adv s r :
  Re.match_at p adv s = Some r ->
  Re.split_loop (S n) p adv s =
    [] :: Re.split_loop n p (length r =? length s)%nat r.
Proof. intros H. cbn [Re.split_loop]. rewrite (search_hit _ _ _ H). reflexivity. Qed.

Lemma split_loop_miss n adv c s :
  Re.match_at p adv (c :: s) = None ->
  Re.split_loop (S n) p adv (c :: s) = push c (Re.split_loop (S n) p false s).
Proof.
  intros H. cbn [Re.split_loop]. rewrite (search_miss _ _ _ H).
  destruct (Re.search p false s) as [[[pre r] e]|]; reflexivity.
Qed.

End ReLoops.

(** *** A pattern of one character class *)

Section OneClass.
Variable cls : char -> bool.

Lemma match_at_one adv c s :
  Re.match_at [Re.One cls] adv (c :: s) = if cls c then Some s else None.
Proof.
  unfold Re.match_at. simpl. destruct (cls c); [|reflexivity].
  replace (length s =? S (length s))%nat with false.
  - rewrite andb_false_r. reflexivity.
  - symmetry. apply Nat.eqb_neq. lia.
Qed.

Lemma match_at_one_nil adv : Re.match_at [Re.One cls] adv [] = None.
Proof. reflexivity. Qed.

Lemma sub_loop_one repl s : forall n adv,
  (length s <= n)%nat ->
  Re.sub_loop n [Re.One cls] repl adv s =
    flat_map (fun c => if cls c then repl else [c]) s.
Proof.
  induction s as [|c s IH]; intros n adv Hn.
  - apply sub_loop_nil. reflexivity.
  - destruct n as [|n]; [simpl in Hn; lia|]. simpl in Hn.
    pose proof (match_at_one adv c s) as Hm. simpl flat_map.
    destruct (cls c).
    + rewrite (sub_loop_hit _ _ _ _ _ _ Hm). rewrite IH by lia. reflexivity.
    + rewrite (sub_loop_miss _ _ _ _ _ _ Hm). rewrite IH by lia. reflexivity.
Qed.

Lemma flat_map_delete s :
  flat_map (fun c => if cls c then [] else [c]) s = without cls s.
Proof.
  induction s as [|c s IH]; simpl; [reflexivity|].
  rewrite IH. destruct (cls c); reflexivity.
Qed.

(** Deleting the matches of a class is filtering its characters out. *)
Lemma sub_one_delete s : Re.sub [Re.One cls] [] s = without cls s.
Proof.
  unfold Re.sub, Re.all_matches. rewrite sub_loop_one by lia.
  apply flat_map_delete.
Qed.

Lemma split_loop_one s : forall n adv,
  (length s <= n)%nat ->
  Re.split_loop n [Re.One cls] adv s = segments cls s.
Proof.
  induction s as [|c s IH]; intros n adv Hn.
  - destruct n; reflexivity.
  - destruct n as [|n]; [simpl in Hn; lia|]. simpl in Hn.
    pose proof (match_at_one adv c s) as Hm. simpl segments.
    destruct (cls c).
    + rewrite (split_loop_hit _ _ _ _ _ Hm). rewrite IH by lia. reflexivity.
    + rewrite (split_loop_miss _ _ _ _ _ Hm). rewrite IH by lia. reflexivity.
Qed.

Lemma split_one s : Re.split [Re.One cls] s = segments cls s.
Proof. unfold Re.split, Re.all_matches. apply split_loop_one. lia. Qed.

End OneClass.

(** ** Trimming *)

Lemma take_drop_while p s : take_while p s ++ drop_while p s = s.
Proof.
  induction s as [|c s IH]; simpl; [reflexivity|].
  destruct (p c); simpl; [rewrite IH|]; reflexivity.
Qed.

Lemma take_while_all p s : forallb p (take_while p s) = true.
Proof.
  induction s as [|c s IH]; simpl; [reflexivity|].
  destruct (p c) eqn:Hc; simpl; [rewrite Hc, IH|]; reflexivity.
Qed.

Lemma drop_while_head p s c s' : drop_while p s = c :: s' -> p c = false.
Proof.
  induction s as [|d s IH]; simpl; [discriminate|].
  destruct (p d) eqn:Hd; [exact IH|]. intros H. injection H as -> _. exact Hd.
Qed.

Lemma drop_while_length p s : (length (drop_while p s) <= length s)%nat.
Proof.
  induction s as [|c s IH]; simpl; [lia|]. destruct (p c); simpl; lia.
Qed.

Lemma forallb_rev_true {A} (p : A -> bool) l :
  forallb p l = true -> forallb p (rev l) = true.
Proof.
  rewrite !forallb_forall. intros H x Hx. apply H, in_rev. exact Hx.
Qed.

(** What [rstrip] removes is a suffix of whitespace. *)
Lemma rstrip_suffix s :
  exists t, s = rstrip s ++ t /\ forallb isspace t = true.
Proof.
  exists (rev (take_while isspace (rev s))). split.
  - unfold rstrip. rewrite <- rev_app_distr, take_drop_while, rev_involutive.
    reflexivity.
  - apply forallb_rev_true, take_while_all.
Qed.

Lemma rstrip_last s c s' : rstrip s = s' ++ [c] -> isspace c = false.
Proof.
  unfold rstrip. intros H.
  apply (f_equal (@rev char)) in H. rewrite rev_involutive, rev_app_distr in H.
  simpl in H. exact (drop_while_head _ _ _ _ H).
Qed.

Lemma strip_head s c s' : strip s = c :: s' -> isspace c = false.
Proof.
  unfold strip. intros H.
  destruct (rstrip_suffix (lstrip s)) as (t & Ht & _).
  rewrite H in Ht. simpl in Ht. exact (drop_while_head _ _ _ _ Ht).
Qed.

Lemma strip_no_space_at_ends s : no_space_at_ends (strip s).
Proof.
  split; intros c s' H.
  - exact (strip_head _ _ _ H).
  - exact (rstrip_last _ _ _ H).
Qed.

Lemma strip_length s : (length (strip s) <= length s)%nat.
Proof.
  unfold strip, rstrip, lstrip. rewrite length_rev.
  etransitivity; [apply drop_while_length|]. rewrite length_rev.
  apply drop_while_length.
Qed.

(** [strip] keeps a part of the string: nothing new comes in. *)
Lemma strip_incl s c : In c (strip s) -> In c s.
Proof.
  unfold strip. intros H.
  destruct (rstrip_suffix (lstrip s)) as (t & Ht & _).
  assert (In c (lstrip s)) as H1 by (rewrite Ht; apply in_or_app; left; exact H).
  unfold lstrip in H1. rewrite <- (take_drop_while isspace s).
  apply in_or_app. right. exact H1.
Qed.

Lemma strip_blank s : blank s = true -> strip s = [].
Proof.
  intros H. unfold strip, lstrip.
  assert (drop_while isspace s = []) as ->; [|reflexivity].
  induction s as [|c s IH]; simpl in *; [reflexivity|].
  apply andb_true_iff in H as [-> H]. exact (IH H).
Qed.

Lemma truthy_strip s : truthy (strip s) = negb (blank s).
Proof.
  destruct (blank s) eqn:Hb.
  - rewrite (strip_blank _ Hb). reflexivity.
  - simpl. destruct (strip s) as [|c s'] eqn:Hs; [|reflexivity].
    exfalso. unfold strip in Hs.
    destruct (rstrip_suffix (lstrip s)) as (t & Ht & Hall).
    rewrite Hs in Ht. simpl in Ht. unfold lstrip in Ht.
    assert (blank s = true); [|congruence].
    unfold blank. rewrite <- (take_drop_while isspace s), forallb_app.
    rewrite take_while_all. simpl. rewrite Ht. exact Hall.
Qed.

(** ** File names *)

Lemma sanitize_filename_eq name :
  sanitize_filename name =
    strip (firstn 150 (without (Re.one_of illegal_chars) name)).
Proof.
  unfold sanitize_filename, re_illegal, slice_to.
  rewrite sub_one_delete. reflexivity.
Qed.

Lemma without_not_in cls s c : cls c = true -> ~ In c (without cls s).
Proof.
  unfold without. intros Hc H. apply filter_In in H as [_ H].
  rewrite Hc in H. discriminate.
Qed.

Lemma firstn_incl {A} n (l : list A) x : In x (firstn n l) -> In x l.
Proof.
  intros H. rewrite <- (firstn_skipn n l). apply in_or_app. left. exact H.
Qed.

Lemma sanitize_filename_legal name c :
  In c illegal_chars -> ~ In c (sanitize_filename name).
Proof.
  intros Hc H. rewrite sanitize_filename_eq in H.
  apply strip_incl, firstn_incl in H. revert H. apply without_not_in.
  unfold Re.one_of. apply existsb_exists. exists c. split; [exact Hc|].
  apply N.eqb_refl.
Qed.

Lemma sanitize_filename_length name :
  (length (sanitize_filename name) <= 150)%nat.
Proof.
  rewrite sanitize_filename_eq. etransitivity; [apply strip_length|].
  rewrite length_firstn. lia.
Qed.

(** ** Whitespace runs with a line feed *)

Lemma take_while_ext p q s :
  (forall c, p c = q c) -> take_while p s = take_while q s.
Proof.
  intros H. induction s as [|c s IH]; simpl; [reflexivity|].
  rewrite H, IH. reflexivity.
Qed.

Lemma drop_while_ext p q s :
  (forall c, p c = q c) -> drop_while p s = drop_while q s.
Proof.
  intros H. induction s as [|c s IH]; simpl; [reflexivity|].
  rewrite H, IH. reflexivity.
Qed.

Lemma is_nl_isspace c : is_nl c = true -> isspace c = true.
Proof. unfold is_nl. intros H. apply N.eqb_eq in H. subst c. reflexivity. Qed.

Lemma match_star_any cls s : Re.match_star cls Some s = Some (drop_while cls s).
Proof.
  induction s as [|c s IH]; simpl; [reflexivity|].
  destruct (cls c); [rewrite IH|]; reflexivity.
Qed.

Lemma match_star_ext cls k k' s :
  (forall r, k r = k' r) -> Re.match_star cls k s = Re.match_star cls k' s.
Proof.
  intros H. induction s as [|c s IH]; simpl; [apply H|].
  rewrite IH, H. reflexivity.
Qed.

(** The pattern matches at the start of [s] when the whitespace there
    holds a line feed, and then takes all of that whitespace. *)
Lemma match_at_newline_run s :
  Re.match_at re_newline_run false s =
    if existsb is_nl (take_while isspace s)
    then Some (drop_while isspace s) else None.
Proof.
  unfold Re.match_at, re_newline_run. cbn [Re.match_items andb].
  induction s as [|c s IH]; [reflexivity|].
  cbn [Re.match_star take_while drop_while].
  destruct (isspace c) eqn:Hc.
  - rewrite (match_star_ext _ _
      (fun s0 => match s0 with
                 | [] => None
                 | c0 :: s' =>
                     if is_nl c0 then Re.match_star isspace Some s' else None
                 end)) in IH |- * by (intros [|? ?]; reflexivity).
    rewrite IH. cbn [existsb].
    destruct (existsb is_nl (take_while isspace s)).
    + rewrite orb_true_r. reflexivity.
    + rewrite orb_false_r. destruct (is_nl c); [|reflexivity].
      apply match_star_any.
  - destruct (is_nl c) eqn:Hn; [|reflexivity].
    apply is_nl_isspace in Hn. congruence.
Qed.

Lemma match_at_newline_run_shorter s r :
  Re.match_at re_newline_run false s = Some r ->
  r = drop_while isspace s /\ (length r < length s)%nat.
Proof.
  rewrite match_at_newline_run.
  destruct (existsb is_nl (take_while isspace s)) eqn:H; [|discriminate].
  intros [= <-]. split; [reflexivity|].
  rewrite <- (take_drop_while isspace s) at 2. rewrite length_app.
  destruct (take_while isspace s); [discriminate|]. simpl. lia.
Qed.

Lemma runs_cons c s :
  runs (c :: s) =
    (c :: take_while (same_class c) s) :: runs (drop_while (same_class c) s).
Proof.
  revert c. induction s as [|d t IH]; intros c; [reflexivity|].
  change (runs (c :: d :: t)) with
    (match runs (d :: t) with
     | (d' :: r) :: rs =>
         if same_class c d' then (c :: d' :: r) :: rs
         else [c] :: (d' :: r) :: rs
     | rs => [c] :: rs
     end).
  rewrite (IH d). cbn [take_while drop_while].
  destruct (same_class c d) eqn:Hcd.
  - unfold same_class in Hcd. apply eqb_prop in Hcd.
    rewrite (take_while_ext (same_class c) (same_class d)),
            (drop_while_ext (same_class c) (same_class d));
      try (intros x; unfold same_class; rewrite Hcd; reflexivity).
    reflexivity.
  - rewrite (IH d). reflexivity.
Qed.

Lemma collapse_cons c s :
  collapse_newline_runs (c :: s) =
    collapse_run (c :: take_while (same_class c) s)
    ++ collapse_newline_runs (drop_while (same_class c) s).
Proof. unfold collapse_newline_runs. rewrite runs_cons. reflexivity. Qed.

Lemma same_class_space c d : isspace c = true -> same_class c d = isspace d.
Proof. unfold same_class. intros ->. destruct (isspace d); reflexivity. Qed.

Lemma collapse_hit c s :
  isspace c = true ->
  existsb is_nl (c :: take_while isspace s) = true ->
  collapse_newline_runs (c :: s) =
    [space] ++ collapse_newline_runs (drop_while isspace s).
Proof.
  intros Hc Hn. rewrite collapse_cons.
  rewrite (take_while_ext _ isspace), (drop_while_ext _ isspace)
    by (intros d; apply same_class_space; exact Hc).
  unfold collapse_run, blank. cbn [forallb]. rewrite Hc, take_while_all, Hn.
  reflexivity.
Qed.

Lemma collapse_run_tail c d r :
  same_class c d = true ->
  collapse_run (c :: d :: r) = c :: d :: r ->
  collapse_run (d :: r) = d :: r.
Proof.
  unfold collapse_run, blank, same_class. intros Hcd. apply eqb_prop in Hcd.
  cbn [forallb existsb]. rewrite Hcd.
  destruct (isspace d); cbn [andb]; [|reflexivity].
  destruct (forallb isspace r); cbn [andb]; [|reflexivity].
  destruct (is_nl d || existsb is_nl r); [|reflexivity].
  rewrite orb_true_r. discriminate.
Qed.

Lemma collapse_miss c s :
  collapse_run (c :: take_while (same_class c) s)
    = c :: take_while (same_class c) s ->
  collapse_newline_runs (c :: s) = c :: collapse_newline_runs s.
Proof.
  intros H. rewrite collapse_cons, H. destruct s as [|d t]; [reflexivity|].
  cbn [take_while drop_while] in *.
  destruct (same_class c d) eqn:Hcd; [|reflexivity].
  rewrite (collapse_cons d t).
  assert (forall x, same_class c x = same_class d x) as Hext.
  { intros x. unfold same_class in *. apply eqb_prop in Hcd.
    rewrite Hcd. reflexivity. }
  rewrite (take_while_ext _ _ t Hext), (drop_while_ext _ _ t Hext) in *.
  rewrite (collapse_run_tail _ _ _ Hcd H). reflexivity.
Qed.

Lemma collapse_run_unchanged c r :
  (isspace c && existsb is_nl (c :: r)) = false ->
  collapse_run (c :: r) = c :: r.
Proof.
  unfold collapse_run, blank. cbn [forallb]. intros H.
  destruct (isspace c); cbn [andb] in *; [|reflexivity].
  rewrite H, andb_false_r. reflexivity.
Qed.

Lemma sub_loop_newline_run s : forall n,
  (length s <= n)%nat ->
  Re.sub_loop n re_newline_run [space] false s = collapse_newline_runs s.
Proof.
  induction s as [s IH] using (induction_ltof1 _ (@length char)).
  unfold ltof in IH. intros n Hn.
  destruct s as [|c s].
  { apply sub_loop_nil. reflexivity. }
  destruct n as [|n]; [simpl in Hn; lia|]. simpl in Hn.
  pose proof (match_at_newline_run (c :: s)) as Hm.
  cbn [take_while drop_while] in Hm.
  destruct (isspace c) eqn:Hc.
  - destruct (existsb is_nl (c :: take_while isspace s)) eqn:Hnl.
    + rewrite (sub_loop_hit _ _ _ _ _ _ Hm).
      assert (length (drop_while isspace s) < length (c :: s))%nat as Hlt
        by (pose proof (drop_while_length isspace s); simpl; lia).
      replace (length (drop_while isspace s) =? length (c :: s))%nat
        with false by (symmetry; apply Nat.eqb_neq; lia).
      rewrite IH by (simpl in *; lia).
      symmetry. apply collapse_hit; assumption.
    + rewrite (sub_loop_miss _ _ _ _ _ _ Hm).
      rewrite IH by (simpl; lia).
      symmetry. apply collapse_miss, collapse_run_unchanged.
      rewrite Hc. cbn [andb].
      rewrite (take_while_ext _ isspace)
        by (intros d; apply same_class_space; exact Hc).
      exact Hnl.
  - cbn [existsb] in Hm.
    rewrite (sub_loop_miss _ _ _ _ _ _ Hm).
    rewrite IH by (simpl; lia).
    symmetry. apply collapse_miss, collapse_run_unchanged.
    rewrite Hc. reflexivity.
Qed.

(** [re.sub] with this pattern and one space turns every maximal
    whitespace run that holds a line feed into one space, and changes
    nothing else. *)
Lemma sub_newline_run s :
  Re.sub re_newline_run [space] s = collapse_newline_runs s.
Proof. unfold Re.sub, Re.all_matches. apply sub_loop_newline_run. lia. Qed.

(** ** Splitting on a literal *)

Lemma strip_prefix_some sep s rest :
  strip_prefix sep s = Some rest -> s = sep ++ rest.
Proof.
  revert s. induction sep as [|a sep IH]; intros s H; simpl in H.
  - injection H as ->. reflexivity.
  - destruct s as [|c s]; [discriminate|].
    destruct (a =? c) eqn:Hac; [|discriminate].
    apply N.eqb_eq in Hac. subst c. simpl. f_equal. apply IH, H.
Qed.

Lemma find_sep_some sep s pre rest :
  find_sep sep s = Some (pre, rest) -> s = pre ++ sep ++ rest.
Proof.
  revert pre. induction s as [|c s IH]; intros pre H.
  - simpl in H. destruct (strip_prefix sep []) eqn:Hp; [|discriminate].
    injection H as <- <-. exact (strip_prefix_some _ _ _ Hp).
  - cbn [find_sep] in H.
    destruct (strip_prefix sep (c :: s)) eqn:Hp.
    + injection H as <- <-. exact (strip_prefix_some _ _ _ Hp).
    + destruct (find_sep sep s) as [[pre' rest']|]; [|discriminate].
      injection H as <- <-. simpl. f_equal. apply IH. reflexivity.
Qed.

Lemma split_max_cons n sep s : exists h t, split_max n sep s = h :: t.
Proof.
  destruct n; simpl; [eauto|].
  destruct (find_sep sep s) as [[pre rest]|]; eauto.
Qed.

(** The pieces of a split, put together again with the separator, give
    the string back. *)
Lemma join_split_max n sep s : join sep (split_max n sep s) = s.
Proof.
  revert s. induction n as [|n IH]; intros s; [reflexivity|].
  cbn [split_max]. destruct (find_sep sep s) as [[pre rest]|] eqn:Hf;
    [|reflexivity].
  destruct (split_max_cons n sep rest) as (h & t & Ht).
  specialize (IH rest). rewrite Ht in *. cbn [join]. cbn [join] in IH.
  rewrite IH. symmetry. exact (find_sep_some _ _ _ _ Hf).
Qed.

Lemma find_sep_char h s :
  match find_sep [h] s with
  | Some (pre, _) => pre = take_while (fun c => negb (c =? h)) s
  | None => True
  end.
Proof.
  induction s as [|c s IH]; [exact I|].
  cbn [find_sep strip_prefix take_while]. rewrite (N.eqb_sym c h).
  destruct (h =? c); [reflexivity|]. cbn [negb].
  destruct (find_sep [h] s) as [[pre rest]|]; [|exact I].
  rewrite IH. reflexivity.
Qed.

Lemma find_sep_char_none h s :
  find_sep [h] s = None -> take_while (fun c => negb (c =? h)) s = s.
Proof.
  induction s as [|c s IH]; [reflexivity|].
  cbn [find_sep strip_prefix take_while]. rewrite (N.eqb_sym c h).
  destruct (h =? c); [discriminate|]. cbn [negb].
  destruct (find_sep [h] s) as [[pre rest]|]; [discriminate|].
  intros _. rewrite IH; reflexivity.
Qed.

(** The first piece of a split on one character is the text before its
    first occurrence; there always is a first piece. *)
Lemma split_char_first h s :
  index (PyStr.split [h] s) 0 = Ok (take_while (fun c => negb (c =? h)) s).
Proof.
  unfold PyStr.split. destruct s as [|c s]; [reflexivity|].
  cbn [length split_max].
  pose proof (find_sep_char h (c :: s)) as H1.
  pose proof (find_sep_char_none h (c :: s)) as H2.
  destruct (find_sep [h] (c :: s)) as [[pre rest]|].
  - rewrite H1. reflexivity.
  - rewrite H2; reflexivity.
Qed.

(** ** Years *)

Lemma resolve_year_eq e :
  resolve_year e =
    Ok (if truthy (get e "year" []) then get e "year" []
        else before_hyphen (get e "date" (lit "n.d."))).
Proof.
  unfold resolve_year. destruct (truthy (get e "year" [])); [reflexivity|].
  apply (split_char_first hyphen).
Qed.

Section ExtractFacts.
Context {U : UnicodeCase}.

(** The extraction never raises. *)
Lemma extract_total e : exists f, extract e = Ok f.
Proof. unfold extract. rewrite resolve_year_eq. eauto. Qed.

Lemma extract_fields e f :
  extract e = Ok f ->
  bib_key f = get e "ID" (lit "no_id")
  /\ title f = clean_title (get e "title" (lit "No Title"))
  /\ journal f = py_or (get e "journaltitle" []) (get e "journal" [])
  /\ doi f = get e "doi" []
  /\ url f = get e "url" []
  /\ resolve_year e = Ok (year f)
  /\ tags f = format_tags (get e "keywords" [])
  /\ author_list f = parse_authors (get e "author" [])
  /\ abstract f = clean_abstract (get e "abstract" []).
Proof.
  unfold extract. destruct (resolve_year e) as [y|x]; [|discriminate].
  intros [= <-]. cbn. repeat split; reflexivity.
Qed.

End ExtractFacts.

Lemma get_absent e key d : absent e key -> get e key d = d.
Proof. unfold absent, lookup_key, get. intros ->. reflexivity. Qed.

Lemma get_present e key d v : lookup_key e key = Some v -> get e key d = v.
Proof. unfold lookup_key, get. intros ->. reflexivity. Qed.

(** ** Writing one note *)

Section NoteFacts.
Context {U : UnicodeCase} {E : Env}.

Lemma emit_ok ev st :
  print_raises (fst st) ev = None ->
  emit ev st = (Ok tt, (fst st, snd st ++ [ev])).
Proof. unfold emit. intros ->. reflexivity. Qed.

Lemma emit_raise ev st x :
  print_raises (fst st) ev = Some x -> emit ev st = (Raise x, st).
Proof. unfold emit. intros ->. reflexivity. Qed.

(** A line is printed, or the stream raises and nothing has changed. *)
Lemma emit_cases ev st :
  match emit ev st with
  | (Ok _, st') =>
      st' = (fst st, snd st ++ [ev]) /\ print_raises (fst st) ev = None
  | (Raise x, st') => st' = st /\ print_raises (fst st) ev = Some x
  end.
Proof. unfold emit. destruct (print_raises (fst st) ev); split; reflexivity. Qed.

(** What [create_literature_note_from_entry] does, case by case. An
    [IOError] of the write, or of the line that reports the written
    note, is reported as a failed write; any other exception goes to
    the caller. *)
Lemma create_note_eq e output_dir st :
  create_literature_note_from_entry e output_dir st =
    match extract e with
    | Raise x => (Raise x, st)
    | Ok f =>
        match dumps e with
        | Raise x => (Raise x, st)
        | Ok bibtex =>
            let output_path := output_path_of output_dir f in
            let report x (st' : state) : result unit * state :=
              if is_IOError x
              then print_err (msg_write_error output_path (exn_text x)) st'
              else (Raise x, st') in
            match write_text (fst st) output_path (md_content f bibtex) with
            | (w, None) =>
                match print_raises w (Stdout (msg_created output_path)) with
                | None =>
                    (Ok tt, (w, snd st ++ [Stdout (msg_created output_path)]))
                | Some x => report x (w, snd st)
                end
            | (w, Some x) => report x (w, snd st)
            end
        end
    end.
Proof.
  unfold create_literature_note_from_entry, bind, lift.
  destruct (extract e) as [f|x]; [|reflexivity].
  destruct (dumps e) as [bibtex|x]; [|reflexivity].
  unfold try_except, bind, do_write. cbn [fst snd].
  destruct (write_text (fst st) (output_path_of output_dir f) (md_content f bibtex))
    as [w [x|]]; cbn [fst snd]; [reflexivity|].
  unfold print at 1, emit at 1. cbn [fst snd].
  destruct (print_raises w (Stdout (msg_created (output_path_of output_dir f))));
    reflexivity.
Qed.

End NoteFacts.

(** ** The claims about file names *)

(** C10. For every input string the result of [sanitize_filename] has no
    whitespace at either end and at most 150 characters; the trimming
    comes after the cut at 150 characters, so that a title of more than
    150 characters can give fewer than 150. *)
Theorem sanitize_filename_trimmed_bounded :
  (forall name,
     no_space_at_ends (sanitize_filename name)
     /\ (length (sanitize_filename name) <= 150)%nat
     /\ sanitize_filename name =
          strip (firstn 150 (without (Re.one_of illegal_chars) name)))
  /\ (exists name,
        (150 < length name)%nat /\ (length (sanitize_filename name) < 150)%nat).
Proof.
  split.
  - intros name. split; [|split].
    + rewrite sanitize_filename_eq. apply strip_no_space_at_ends.
    + apply sanitize_filename_length.
    + apply sanitize_filename_eq.
  - exists (repeat 97 149 ++ [space; 98]). split.
    + rewrite length_app, repeat_length. simpl. lia.
    + apply Nat.ltb_lt. vm_compute. reflexivity.
Qed.

(** C4. The file name of a note is the sanitized title, then the
    identifier between [" ("] and [").md"], and this is the name that is
    joined to the output directory and written; the sanitized title is
    the title without the nine illegal characters, cut at 150 characters
    (and trimmed), so that it holds none of them, in particular no colon
    and no slash, and has at most 150 characters. *)
Theorem file_name_construction {U : UnicodeCase} {E : Env} :
  forall (e : entry) (output_dir : str) (st : state),
  exists f,
    extract e = Ok f
    /\ title f = clean_title (get e "title" (lit "No Title"))
    /\ bib_key f = get e "ID" (lit "no_id")
    /\ file_name f = sanitize_filename (title f) ++ lit " (" ++ bib_key f ++ lit ").md"
    /\ sanitize_filename (title f) =
         strip (firstn 150 (without (Re.one_of illegal_chars) (title f)))
    /\ (forall c, In c illegal_chars -> ~ In c (sanitize_filename (title f)))
    /\ ~ In 58 (sanitize_filename (title f))
    /\ ~ In 47 (sanitize_filename (title f))
    /\ (length (sanitize_filename (title f)) <= 150)%nat
    /\ match dumps e with
       | Raise x => create_literature_note_from_entry e output_dir st = (Raise x, st)
       | Ok bibtex =>
           create_literature_note_from_entry e output_dir st =
             try_except
               (do_write (path_join output_dir (file_name f)) (md_content f bibtex) ;;;
                print (msg_created (path_join output_dir (file_name f))))
               is_IOError
               (fun x => print_err
                  (msg_write_error (path_join output_dir (file_name f)) (exn_text x)))
               st
       end.
Proof.
  intros e output_dir st. destruct (extract_total e) as [f Hf].
  destruct (extract_fields e f Hf) as (Hk & Ht & _).
  exists f. repeat split; try assumption.
  - apply sanitize_filename_eq.
  - intros c. apply sanitize_filename_legal.
  - apply sanitize_filename_legal. vm_compute. tauto.
  - apply sanitize_filename_legal. vm_compute. tauto.
  - apply sanitize_filename_length.
  - unfold create_literature_note_from_entry, bind, lift. rewrite Hf.
    destruct (dumps e); reflexivity.
Qed.

Lemma file_name_construction_witness :
  exists f,
    @extract ascii_case {[ lit "title" := lit "a: {b}/c" ]} = Ok f
    /\ file_name f = lit "a bc (no_id).md"
    /\ ~ In 58 (sanitize_filename (title f)).
Proof.
  destruct (@file_name_construction ascii_case Mem.env
              {[ lit "title" := lit "a: {b}/c" ]} [] (Runs.start ∅))
    as (f & Hf & Ht & Hk & Hn & _ & Hlegal & _).
  exists f. split; [exact Hf|]. split.
  - rewrite Hn, Ht, Hk. vm_compute. reflexivity.
  - apply Hlegal. vm_compute. tauto.
Defined.

(** ** Tags *)

Lemma join_empty parts : join [] parts = concat parts.
Proof.
  induction parts as [|p ps IH]; [reflexivity|].
  destruct ps as [|q ps]; [simpl; rewrite app_nil_r; reflexivity|].
  change (join [] (p :: q :: ps)) with (p ++ [] ++ join [] (q :: ps)).
  rewrite IH. reflexivity.
Qed.

Lemma concat_split_ws_from s : forall cur,
  concat (split_ws_from cur s) = rev cur ++ without isspace s.
Proof.
  induction s as [|c s IH]; intros cur.
  - simpl. destruct cur; [reflexivity|].
    cbn [concat]. rewrite !app_nil_r. reflexivity.
  - cbn [split_ws_from without List.filter]. destruct (isspace c); cbn [negb].
    + destruct cur as [|d cur]; [apply IH|].
      cbn [concat]. rewrite IH. reflexivity.
    + rewrite IH. cbn [rev]. rewrite <- app_assoc. reflexivity.
Qed.

(** Splitting at whitespace and joining with nothing removes the
    whitespace. *)
Lemma join_split_ws s : join [] (split_ws s) = without isspace s.
Proof. rewrite join_empty. apply (concat_split_ws_from s []). Qed.

Lemma without_clean cls s c : In c (without cls s) -> cls c = false.
Proof.
  unfold without. intros H. apply filter_In in H as [_ H].
  apply negb_true_iff. exact H.
Qed.

Lemma replace_char_in old new s c :
  In c (replace_char old new s) ->
  (c = new /\ In old s) \/ (c <> old /\ In c s).
Proof.
  unfold replace_char. intros H. apply in_map_iff in H as (d & Hd & Hin).
  destruct (d =? old) eqn:Hdo.
  - apply N.eqb_eq in Hdo. subst. left. split; [reflexivity|exact Hin].
  - apply N.eqb_neq in Hdo. subst. right. split; assumption.
Qed.

Lemma forallb_strip p s : forallb p s = true -> forallb p (strip s) = true.
Proof.
  rewrite !forallb_forall. intros H c Hc. apply H, strip_incl, Hc.
Qed.

Lemma is_ascii_not_sigma c : is_ascii c = true -> (c =? 0x3A3) = false.
Proof.
  unfold is_ascii. intros H. apply N.ltb_lt in H. apply N.eqb_neq. lia.
Qed.

Section TagFacts.
Context {U : UnicodeCase}.

Lemma format_tags_step_eq tags kw :
  format_tags_step tags kw =
    tags ++ (if blank kw then [] else [tag_of_keyword kw]).
Proof.
  unfold format_tags_step, tag_of_keyword.
  rewrite truthy_strip, negb_involutive, join_split_ws.
  destruct (blank kw); [rewrite app_nil_r|]; reflexivity.
Qed.

Lemma format_tags_loop kws : forall tags,
  fold_left format_tags_step kws tags =
    tags ++ List.map tag_of_keyword (List.filter (fun kw => negb (blank kw)) kws).
Proof.
  induction kws as [|kw kws IH]; intros tags; cbn [fold_left List.filter List.map].
  - rewrite app_nil_r. reflexivity.
  - rewrite IH, format_tags_step_eq.
    destruct (blank kw); cbn [negb List.map]; rewrite <- app_assoc; reflexivity.
Qed.

(** The loop of [format_tags] computes the tags of the specification. *)
Lemma format_tags_eq keywords_str :
  format_tags keywords_str = tags_of_keywords keywords_str.
Proof.
  unfold format_tags, tags_of_keywords.
  destruct keywords_str as [|c s]; [reflexivity|].
  cbn [truthy negb]. unfold re_semi_comma. rewrite split_one.
  apply (format_tags_loop _ []).
Qed.

Lemma tag_of_keyword_clean kw c :
  In c (tag_of_keyword kw) -> isspace c = false /\ c <> hyphen.
Proof.
  unfold tag_of_keyword. intros H.
  apply replace_char_in in H as [[-> _]|[Hne H]].
  - split; [reflexivity|discriminate].
  - split; [exact (without_clean _ _ _ H)|exact Hne].
Qed.

End TagFacts.

(** On ASCII text every database gives the title case of ASCII. *)
Lemma do_title_ascii (U : UnicodeCase) s : forall before before' b,
  forallb is_ascii s = true ->
  @do_title U before b s = @do_title ascii_case before' b s.
Proof.
  induction s as [|c s IH]; intros before before' b H; [reflexivity|].
  cbn [forallb] in H. apply andb_true_iff in H as [Hc Hs].
  cbn [do_title]. unfold lower_at. rewrite (is_ascii_not_sigma c Hc).
  rewrite (@is_cased_ascii U c Hc), (@is_cased_ascii ascii_case c Hc).
  rewrite (@to_title_ascii U c Hc), (@to_title_ascii ascii_case c Hc).
  rewrite (@to_lower_ascii U c Hc), (@to_lower_ascii ascii_case c Hc).
  rewrite (IH (c :: before) (c :: before') _ Hs). reflexivity.
Qed.

Lemma tag_of_keyword_ascii (U : UnicodeCase) kw :
  forallb is_ascii kw = true ->
  @tag_of_keyword U kw = @tag_of_keyword ascii_case kw.
Proof.
  intros H. unfold tag_of_keyword, to_title.
  rewrite (do_title_ascii U (strip kw) [] [] false); [reflexivity|].
  apply forallb_strip, H.
Qed.

(** C1. [format_tags] splits the keyword string at every semicolon and
    comma, drops the segments that are empty or all whitespace, and
    turns each other segment, in order, into its title case without
    whitespace and with every hyphen replaced by a slash; the keywords
    a-b; c,d-e give the tags A/B, C and D/E, and the empty string gives
    no tag. *)
Theorem format_tags_spec {U : UnicodeCase} :
  (forall keywords_str,
     format_tags keywords_str =
       List.map
         (fun kw => replace_char hyphen slash
                      (without isspace (to_title (strip kw))))
         (List.filter (fun kw => negb (blank kw))
            (segments (Re.one_of (lit ";,")) keywords_str)))
  /\ (forall keywords_str tag c,
        In tag (format_tags keywords_str) -> In c tag ->
        isspace c = false /\ c <> hyphen)
  /\ format_tags (lit "a-b; c,d-e") = [lit "A/B"; lit "C"; lit "D/E"]
  /\ format_tags [] = [].
Proof.
  split; [|split; [|split]].
  - intros s. apply format_tags_eq.
  - intros s tag c Ht Hc. rewrite format_tags_eq in Ht.
    unfold tags_of_keywords in Ht. apply in_map_iff in Ht as (kw & <- & _).
    exact (tag_of_keyword_clean kw c Hc).
  - rewrite format_tags_eq. unfold tags_of_keywords.
    match goal with
    | |- context [List.filter ?f ?l] =>
        let v := eval vm_compute in (List.filter f l) in
        change (List.filter f l) with v
    end.
    cbn [List.map]. rewrite !(tag_of_keyword_ascii U) by reflexivity.
    vm_compute. reflexivity.
  - reflexivity.
Qed.

Lemma format_tags_spec_witness :
  isspace slash = false /\ slash <> hyphen.
Proof.
  destruct (@format_tags_spec ascii_case) as (_ & Hclean & Hex & _).
  apply (Hclean (lit "a-b; c,d-e") (lit "A/B") slash).
  - rewrite Hex. left. reflexivity.
  - vm_compute. tauto.
Defined.

(** ** Authors *)

Lemma parse_authors_eq authors_str :
  parse_authors authors_str = parse_authors_spec authors_str.
Proof.
  unfold parse_authors, parse_authors_spec.
  destruct authors_str as [|c s]; [reflexivity|].
  cbn [truthy negb]. rewrite sub_newline_run. reflexivity.
Qed.

(** C3. [parse_authors] gives no author for the empty string; for any
    other string it turns every maximal whitespace run that holds a line
    feed into one space, splits the result at the literal " and " (the
    pieces joined by it give the collapsed string back; the comparison
    is by character, so AND does not split) and trims every piece; the
    string Jane Doe and John Q. Smith gives the two names. *)
Theorem parse_authors_spec_ok :
  parse_authors [] = []
  /\ (forall c s,
        exists pieces,
          join (lit " and ") pieces = collapse_newline_runs (c :: s)
          /\ pieces = PyStr.split (lit " and ") (collapse_newline_runs (c :: s))
          /\ parse_authors (c :: s) = List.map strip pieces)
  /\ (forall authors_str, parse_authors authors_str = parse_authors_spec authors_str)
  /\ (forall authors_str name,
        In name (parse_authors authors_str) -> no_space_at_ends name)
  /\ parse_authors (lit "Jane Doe and John Q. Smith")
       = [lit "Jane Doe"; lit "John Q. Smith"]
  /\ parse_authors (lit "Jane Doe" ++ [nl] ++ lit "   and John Smith")
       = [lit "Jane Doe"; lit "John Smith"]
  /\ parse_authors (lit "Jane Doe AND John Smith")
       = [lit "Jane Doe AND John Smith"].
Proof.
  split; [reflexivity|]. split; [|split; [|split; [|split; [|split]]]].
  - intros c s. eexists. split; [|split; [reflexivity|]].
    + apply join_split_max.
    + rewrite parse_authors_eq. reflexivity.
  - apply parse_authors_eq.
  - intros s name H. rewrite parse_authors_eq in H. unfold parse_authors_spec in H.
    destruct s as [|c s]; [destruct H|].
    apply in_map_iff in H as (piece & <- & _). apply strip_no_space_at_ends.
  - vm_compute. reflexivity.
  - vm_compute. reflexivity.
  - vm_compute. reflexivity.
Qed.

Lemma parse_authors_spec_ok_witness :
  no_space_at_ends (lit "John Q. Smith").
Proof.
  destruct parse_authors_spec_ok as (_ & _ & _ & Htrim & Hex & _).
  apply (Htrim (lit "Jane Doe and John Q. Smith")).
  rewrite Hex. right. left. reflexivity.
Defined.

(** ** Years *)

(** The year line is left out for the empty year and for the sentinel,
    and for no other year. *)
Lemma year_line_omitted y : year_line y = [] <-> (y = [] \/ y = lit "n.d.").
Proof.
  unfold year_line, has_year, when, str_eqb.
  destruct y as [|c y]; [simpl; tauto|]. cbn [truthy andb].
  destruct (decide (c :: y = lit "n.d.")) as [->|Hne]; cbn [negb].
  - split; [right|]; reflexivity.
  - split; [discriminate|]. intros [H|H]; congruence.
Qed.

(** C2, as the script has it. The year is the [year] field when that
    field is present and not empty; when it is absent or empty, the year
    is the text of the [date] field before its first hyphen if the entry
    has a [date] field, and the sentinel n.d. if it has none, and with
    the sentinel the front matter and the summary hold no year line. An
    entry with the date 2021-05-01 and no year has the year 2021. *)
Theorem year_resolution {U : UnicodeCase} :
  (forall e y,
     lookup_key e "year" = Some y -> y <> [] -> resolve_year e = Ok y)
  /\ (forall e d,
        absent e "year" \/ lookup_key e "year" = Some [] ->
        lookup_key e "date" = Some d ->
        resolve_year e = Ok (before_hyphen d))
  /\ (forall e,
        absent e "year" \/ lookup_key e "year" = Some [] ->
        absent e "date" ->
        resolve_year e = Ok (lit "n.d.")
        /\ exists f, extract e = Ok f /\ year f = lit "n.d."
                     /\ fm_year f = [] /\ body_year f = [])
  /\ (forall e, exists f, extract e = Ok f /\ resolve_year e = Ok (year f))
  /\ (forall y, year_line y = [] <-> (y = [] \/ y = lit "n.d."))
  /\ resolve_year {[ lit "date" := lit "2021-05-01" ]} = Ok (lit "2021").
Proof.
  assert (forall e, absent e "year" \/ lookup_key e "year" = Some [] ->
                    truthy (get e "year" []) = false) as Hno.
  { intros e [H|H]; [rewrite (get_absent _ _ _ H)|rewrite (get_present _ _ _ _ H)];
      reflexivity. }
  split; [|split; [|split; [|split; [|split]]]].
  - intros e y Hy Hne. rewrite resolve_year_eq, (get_present _ _ _ _ Hy).
    destruct y; [congruence|reflexivity].
  - intros e d Hy Hd.
    rewrite resolve_year_eq, (Hno e Hy), (get_present _ _ _ _ Hd). reflexivity.
  - intros e Hy Hd.
    assert (resolve_year e = Ok (lit "n.d.")) as Hr.
    { rewrite resolve_year_eq, (Hno e Hy), (get_absent _ _ _ Hd). reflexivity. }
    split; [exact Hr|].
    destruct (extract_total e) as [f Hf]. exists f.
    destruct (extract_fields e f Hf) as (_ & _ & _ & _ & _ & Hyear & _).
    rewrite Hr in Hyear. injection Hyear as Hyear.
    unfold fm_year, body_year, year_line. rewrite <- Hyear.
    repeat split; try reflexivity. exact Hf.
  - intros e. destruct (extract_total e) as [f Hf]. exists f.
    split; [exact Hf|]. apply (extract_fields e f Hf).
  - exact year_line_omitted.
  - vm_compute. reflexivity.
Qed.

Lemma year_resolution_witness :
  resolve_year {[ lit "year" := lit "2020" ]} = Ok (lit "2020")
  /\ resolve_year {[ lit "year" := [] ; lit "date" := lit "2021-05-01" ]}
       = Ok (lit "2021")
  /\ resolve_year ∅ = Ok (lit "n.d.").
Proof.
  destruct (@year_resolution ascii_case) as (H1 & H2 & H3 & _).
  split; [|split].
  - apply H1; [vm_compute; reflexivity|discriminate].
  - apply (H2 _ (lit "2021-05-01")); [right|]; vm_compute; reflexivity.
  - apply H3; [left|]; vm_compute; reflexivity.
Defined.

(** C2 as it is worded fails. Read with a field present when its key is
    in the entry, an entry with an empty year and a date gets its year
    from the date, not from the year field; read with a field present
    when its value is not empty, an entry with an empty date and no year
    gets the empty string, not the sentinel. *)
Lemma year_claim_fails :
  ~ year_claim given_key {[ lit "year" := [] ; lit "date" := lit "2021-05-01" ]}
  /\ ~ year_claim given_value {[ lit "date" := [] ]}.
Proof.
  split.
  - intros (H & _).
    assert (given_key {[ lit "year" := [] ; lit "date" := lit "2021-05-01" ]} "year")
      as Hg by (exists []; vm_compute; reflexivity).
    specialize (H Hg). vm_compute in H. discriminate H.
  - intros (_ & _ & H).
    assert (forall key, ~ given_value {[ lit "date" := [] ]} key) as Hn.
    { intros key (v & Hv & Hne). unfold lookup_key in Hv.
      apply lookup_singleton_Some in Hv as [_ <-]. congruence. }
    destruct (H (Hn _) (Hn _)) as [H1 _]. vm_compute in H1. discriminate H1.
Qed.

(** ** The fields of a note *)

Lemma clean_abstract_eq a :
  clean_abstract a = strip (collapse_newline_runs a).
Proof.
  unfold clean_abstract. destruct a as [|c s]; [reflexivity|].
  cbn [truthy]. rewrite sub_newline_run. reflexivity.
Qed.

(** C5, as the script has it. For every entry, whatever keys it has or
    lacks, the extraction returns its fields and raises nothing, and it
    returns the same fields every time; an absent field becomes a
    default: the empty string for the journal, the DOI, the URL and the
    abstract, the empty list for the tags and the authors, the text
    No Title for the title, the sentinel n.d. for the year when the date
    is absent too, and no_id for the identifier. *)
Theorem extract_total_defaults {U : UnicodeCase} :
  forall e,
  exists f,
    extract e = Ok f
    /\ (forall f', extract e = Ok f' -> f' = f)
    /\ (absent e "title" -> title f = lit "No Title")
    /\ (absent e "journaltitle" -> absent e "journal" -> journal f = [])
    /\ (absent e "doi" -> doi f = [])
    /\ (absent e "url" -> url f = [])
    /\ (absent e "year" -> absent e "date" -> year f = lit "n.d.")
    /\ (absent e "keywords" -> tags f = [])
    /\ (absent e "author" -> author_list f = [] /\ authors_body_formatted f = [])
    /\ (absent e "abstract" -> abstract f = [])
    /\ (absent e "ID" -> bib_key f = lit "no_id").
Proof.
  intros e. destruct (extract_total e) as [f Hf]. exists f.
  split; [exact Hf|]. split; [intros f' Hf'; congruence|].
  pose proof Hf as Hf0. unfold extract in Hf0. rewrite resolve_year_eq in Hf0.
  injection Hf0 as <-. cbn [title journal doi url year tags author_list
    authors_body_formatted abstract bib_key].
  repeat split.
  - intros H. rewrite (get_absent _ _ _ H). vm_compute. reflexivity.
  - intros H1 H2. rewrite (get_absent _ _ _ H1), (get_absent _ _ _ H2). reflexivity.
  - intros H. apply (get_absent _ _ _ H).
  - intros H. apply (get_absent _ _ _ H).
  - intros H1 H2. rewrite (get_absent _ _ _ H1), (get_absent _ _ _ H2). reflexivity.
  - intros H. rewrite (get_absent _ _ _ H). reflexivity.
  - rewrite (get_absent _ _ _ H). reflexivity.
  - rewrite (get_absent _ _ _ H). reflexivity.
  - intros H. rewrite (get_absent _ _ _ H). reflexivity.
  - intros H. apply (get_absent _ _ _ H).
Qed.

Lemma extract_total_defaults_witness :
  exists f,
    @extract ascii_case ∅ = Ok f
    /\ title f = lit "No Title" /\ journal f = [] /\ doi f = [] /\ url f = []
    /\ year f = lit "n.d." /\ tags f = [] /\ author_list f = []
    /\ abstract f = [] /\ bib_key f = lit "no_id".
Proof.
  destruct (@extract_total_defaults ascii_case ∅)
    as (f & Hf & _ & Ht & Hj & Hd & Hu & Hy & Hk & Ha & Hb & Hi).
  assert (forall key, absent ∅ key) as Habs by (intros key; reflexivity).
  exists f. split; [exact Hf|].
  repeat split;
    [ apply Ht | apply Hj | apply Hd | apply Hu | apply Hy | apply Hk
    | apply Ha | apply Hb | apply Hi ]; apply Habs.
Defined.

(** C5 as it is worded fails: the entry without any field gets the title
    No Title, which is not the empty string. *)
Lemma transformer_claim_fails :
  ~ exists U : UnicodeCase, @transformer_claim U ∅.
Proof.
  intros (U & f & Hf & Ht & _).
  destruct (extract_fields ∅ f Hf) as (_ & Htitle & _).
  rewrite Ht in Htitle by reflexivity. vm_compute in Htitle. discriminate Htitle.
Qed.

(** C6, as the script has it. The abstract of the note is the abstract
    of the entry in which every maximal whitespace run that holds a line
    feed has become one space, and from which the whitespace at both ends
    has then been removed; a run of whitespace without a line feed that
    is not at an end stays as it is. *)
Theorem abstract_cleaning {U : UnicodeCase} :
  (forall e,
   exists f,
     extract e = Ok f
     /\ abstract f = strip (collapse_newline_runs (get e "abstract" []))
     /\ no_space_at_ends (abstract f))
  /\ clean_abstract (lit "one" ++ [nl] ++ lit "   two  three ")
       = lit "one two  three".
Proof.
  split; [|vm_compute; reflexivity].
  intros e. destruct (extract_total e) as [f Hf]. exists f.
  destruct (extract_fields e f Hf) as (_ & _ & _ & _ & _ & _ & _ & _ & Ha).
  rewrite Ha, clean_abstract_eq.
  split; [exact Hf|]. split; [reflexivity|]. apply strip_no_space_at_ends.
Qed.

(** C6 as it is worded fails. For the abstract made of a line feed and
    the text a, two spaces, b the note has a, two spaces, b: not the text
    with every whitespace run collapsed, trimmed or not, and not the text
    with the line feed collapsed and nothing trimmed. *)
Lemma abstract_claim_fails :
  let e : entry := {[ lit "abstract" := [nl] ++ lit "a  b" ]} in
  ~ (exists U : UnicodeCase, @abstract_claim U collapse_whitespace e)
  /\ ~ (exists U : UnicodeCase,
          @abstract_claim U (fun a => strip (collapse_whitespace a)) e)
  /\ ~ (exists U : UnicodeCase, @abstract_claim U collapse_newline_runs e).
Proof.
  intros e.
  assert (forall (U : UnicodeCase) f, extract e = Ok f -> abstract f = lit "a  b")
    as Hc.
  { intros U f Hf.
    destruct (extract_fields e f Hf) as (_ & _ & _ & _ & _ & _ & _ & _ & Ha).
    rewrite Ha. vm_compute. reflexivity. }
  repeat split; intros (U & f & Hf & Ha); rewrite (Hc U f Hf) in Ha;
    vm_compute in Ha; discriminate Ha.
Qed.

(** C9. An entry without the key [ID] gets the identifier no_id in its
    file name; an entry without the key [title] gets the title No Title,
    in the file name, in the title line of the front matter and in the
    heading of the note. *)
Theorem default_id_and_title {U : UnicodeCase} :
  forall e,
  exists f,
    extract e = Ok f
    /\ (absent e "ID" ->
        bib_key f = lit "no_id"
        /\ file_name f = sanitize_filename (title f) ++ lit " (no_id).md")
    /\ (absent e "title" ->
        title f = lit "No Title"
        /\ title f <> []
        /\ file_name f = lit "No Title (" ++ bib_key f ++ lit ").md"
        /\ fm_title f = lit "title: " ++ [dq] ++ lit "No Title" ++ [dq; nl]
        /\ heading f = lit "# No Title" ++ [nl; nl]
        /\ forall bibtex,
             exists rest,
               md_content f bibtex =
                 lit "---" ++ [nl] ++ lit "title: " ++ [dq] ++ lit "No Title"
                 ++ [dq; nl] ++ rest).
Proof.
  intros e. destruct (extract_total e) as [f Hf]. exists f.
  destruct (extract_fields e f Hf) as (Hk & Ht & _).
  split; [exact Hf|]. split.
  - intros H. rewrite (get_absent _ _ _ H) in Hk.
    split; [exact Hk|]. unfold file_name. rewrite Hk. reflexivity.
  - intros H. rewrite (get_absent _ _ _ H) in Ht.
    assert (title f = lit "No Title") as Ht' by (rewrite Ht; vm_compute; reflexivity).
    split; [exact Ht'|]. split; [rewrite Ht'; discriminate|].
    unfold file_name, fm_title, heading, md_content, front_matter, fm_title.
    rewrite Ht'. repeat split.
    intros bibtex. eexists. rewrite <- !app_assoc. reflexivity.
Qed.

Lemma default_id_and_title_witness :
  exists f,
    @extract ascii_case ∅ = Ok f
    /\ file_name f = lit "No Title (no_id).md".
Proof.
  destruct (@default_id_and_title ascii_case ∅) as (f & Hf & Hid & Ht).
  assert (forall key, absent ∅ key) as Habs by (intros key; reflexivity).
  destruct (Hid (Habs _)) as (Hk & _).
  destruct (Ht (Habs _)) as (_ & _ & Hn & _).
  exists f. split; [exact Hf|]. rewrite Hn, Hk. reflexivity.
Defined.

(** ** Files and batches *)

(** Concrete runs are settled by evaluation, entry by entry: first the
    fields and the serialization of the entry, then what the write and
    the line of the entry give. *)
Ltac settle := vm_compute; repeat split.
Ltac entry_step :=
  eexists _, _;
  split; [vm_compute; reflexivity|];
  split; [vm_compute; reflexivity|];
  cbv zeta.

Section BatchFacts.
Context {U : UnicodeCase} {E : Env}.

Lemma for_each_cons {A} (x : A) xs (body : A -> M unit) st :
  for_each (x :: xs) body st =
    match body x st with
    | (Ok _, st') => for_each xs body st'
    | (Raise e, st') => (Raise e, st')
    end.
Proof. reflexivity. Qed.

(** A loop stops at the first turn that raises. *)
Lemma for_each_raise {A} (pre : list A) x post (body : A -> M unit) e :
  forall st st1 st2,
  for_each pre body st = (Ok tt, st1) ->
  body x st1 = (Raise e, st2) ->
  for_each (pre ++ x :: post) body st = (Raise e, st2).
Proof.
  induction pre as [|y pre IH]; intros st st1 st2 Hpre Hx.
  - injection Hpre as <-. cbn [app]. rewrite for_each_cons, Hx. reflexivity.
  - rewrite <- app_comm_cons, for_each_cons. rewrite for_each_cons in Hpre.
    destruct (body y st) as [[u|e'] st']; [|discriminate].
    exact (IH _ _ _ Hpre Hx).
Qed.

(** What [process_bib_file] does, case by case. The line that announces
    the file is printed before the [try]; what the [try] catches is
    reported on the standard error stream. *)
Lemma process_bib_file_eq file_path output_dir st :
  process_bib_file file_path output_dir st =
    if negb (path_exists (fst st) file_path)
    then print_err (msg_not_found file_path) st
    else
      match print (msg_processing file_path) st with
      | (Raise x, st1) => (Raise x, st1)
      | (Ok _, st1) =>
          let attempt : result unit * state :=
            match load (fst st1) file_path with
            | Raise x => (Raise x, st1)
            | Ok [] => print (msg_no_entries file_path) st1
            | Ok entries => process_entries entries output_dir st1
            end in
          match attempt with
          | (Ok u, st2) => (Ok u, st2)
          | (Raise x, st2) =>
              print_err (msg_file_error file_path (exn_text x)) st2
          end
      end.
Proof.
  unfold process_bib_file, bind, do_exists.
  destruct (path_exists (fst st) file_path); cbn [negb]; [|reflexivity].
  destruct (print (msg_processing file_path) st) as [[u|x] st1]; [|reflexivity].
  unfold try_except, bind, do_load. cbv zeta.
  destruct (load (fst st1) file_path) as [[|e entries]|x]; reflexivity.
Qed.

Lemma process_files_cons p ps output_dir st :
  process_files (p :: ps) output_dir st =
    match process_bib_file p output_dir st with
    | (Ok _, st') => process_files ps output_dir st'
    | (Raise x, st') => (Raise x, st')
    end.
Proof. reflexivity. Qed.

(** An entry that fails with an [IOError] only, or not at all, and
    whose outcome can be printed, is attempted. *)
Lemma create_note_attempt e output_dir st f bibtex :
  extract e = Ok f -> dumps e = Ok bibtex ->
  let output_path := output_path_of output_dir f in
  let r := write_text (fst st) output_path (md_content f bibtex) in
  let failed x :=
    is_IOError x = true
    /\ print_raises (fst r)
         (Stderr (msg_write_error output_path (exn_text x))) = None in
  match snd r with
  | None =>
      match print_raises (fst r) (Stdout (msg_created output_path)) with
      | None => True
      | Some x => failed x
      end
  | Some x => failed x
  end ->
  exists ev,
    create_literature_note_from_entry e output_dir st
      = (Ok tt, (fst r, snd st ++ [ev]))
    /\ attempt_event output_dir e ev.
Proof.
  intros Hf Hd output_path r failed H. rewrite create_note_eq, Hf, Hd. cbv zeta.
  fold output_path. fold r. destruct r as [w [x|]]; cbn [fst snd] in *.
  - destruct H as [-> Hp]. unfold print_err. rewrite emit_ok by exact Hp.
    eexists. split; [reflexivity|]. exists f. split; [exact Hf|].
    right. eexists. reflexivity.
  - destruct (print_raises w (Stdout (msg_created output_path))) as [x|].
    + destruct H as [-> Hp]. unfold print_err. rewrite emit_ok by exact Hp.
      eexists. split; [reflexivity|]. exists f. split; [exact Hf|].
      right. eexists. reflexivity.
    + eexists. split; [reflexivity|]. exists f. split; [exact Hf|].
      left. reflexivity.
Qed.

Lemma process_entries_attempts output_dir entries : forall st,
  io_only_run output_dir entries (fst st) ->
  exists w events,
    process_entries entries output_dir st = (Ok tt, (w, snd st ++ events))
    /\ Forall2 (attempt_event output_dir) entries events.
Proof.
  unfold process_entries.
  induction entries as [|e entries IH]; intros st H.
  - exists (fst st), []. rewrite app_nil_r. destruct st.
    split; [reflexivity|constructor].
  - cbn [io_only_run] in H. destruct H as (f & bibtex & Hf & Hd & Hstep & Hrest).
    destruct (create_note_attempt e output_dir st f bibtex Hf Hd Hstep)
      as (ev & Hrun & Hev).
    rewrite for_each_cons, Hrun.
    destruct (IH (fst (write_text (fst st) (output_path_of output_dir f)
                         (md_content f bibtex)), snd st ++ [ev]) Hrest)
      as (w' & events & -> & Hevs).
    exists w', (ev :: events). cbn [snd]. rewrite <- app_assoc.
    split; [reflexivity|]. constructor; assumption.
Qed.


(** [main] with an output directory that exists: the files in turn,
    then the closing line. *)
Lemma main_eq bibfiles output_dir st :
  path_exists (fst st) output_dir = true ->
  main bibfiles output_dir st =
    bind (process_files bibfiles output_dir) (fun _ => print msg_complete) st.
Proof.
  intros Hex. unfold main, bind at 1 2, do_exists. cbn [fst snd]. rewrite Hex.
  reflexivity.
Qed.

End BatchFacts.

(** C7, as the script has it. A write that fails with an [IOError] is
    reported on the standard error stream with the path and the cause,
    nothing is raised, and the entries after it are processed; when the
    entries of a file fail in that way only and their lines can be
    printed, each of them is attempted, in order. Any other exception
    raised for an entry (by the serialization of the entry, by a write
    that fails otherwise, or by a line that cannot be printed) ends the
    processing of the file: it is reported once, with the path of the
    file and the cause, and what the file gives does not depend on the
    entries after that one. *)
Theorem record_failures {U : UnicodeCase} {E : Env} :
  (forall p cause,
     msg_write_error p cause =
       [0x274C] ++ lit " Error writing to file '" ++ p ++ lit "': " ++ cause
     /\ msg_file_error p cause =
          [0x274C] ++ lit " An error occurred while processing '" ++ p
          ++ lit "': " ++ cause
     /\ msg_created p =
          [0x2705] ++ lit " Literature note '" ++ p
          ++ lit "' created successfully.")
  /\ (forall e post output_dir st f bibtex w x,
        extract e = Ok f -> dumps e = Ok bibtex ->
        write_text (fst st) (output_path_of output_dir f) (md_content f bibtex)
          = (w, Some x) ->
        is_IOError x = true ->
        print_raises w
          (Stderr (msg_write_error (output_path_of output_dir f) (exn_text x)))
          = None ->
        process_entries (e :: post) output_dir st =
          process_entries post output_dir
            (w, snd st ++
                [Stderr (msg_write_error (output_path_of output_dir f)
                           (exn_text x))]))
  /\ (forall file_path output_dir st entries,
        path_exists (fst st) file_path = true ->
        print_raises (fst st) (Stdout (msg_processing file_path)) = None ->
        load (fst st) file_path = Ok entries ->
        entries <> [] ->
        io_only_run output_dir entries (fst st) ->
        exists w events,
          process_bib_file file_path output_dir st =
            (Ok tt, (w, snd st ++ [Stdout (msg_processing file_path)] ++ events))
          /\ Forall2 (attempt_event output_dir) entries events)
  /\ (forall e output_dir st f bibtex w x,
        extract e = Ok f -> dumps e = Ok bibtex ->
        write_text (fst st) (output_path_of output_dir f) (md_content f bibtex)
          = (w, Some x) ->
        is_IOError x = false ->
        create_literature_note_from_entry e output_dir st = (Raise x, (w, snd st)))
  /\ (forall file_path output_dir st pre e post x st2 st3,
        path_exists (fst st) file_path = true ->
        print_raises (fst st) (Stdout (msg_processing file_path)) = None ->
        load (fst st) file_path = Ok (pre ++ e :: post) ->
        process_entries pre output_dir
          (fst st, snd st ++ [Stdout (msg_processing file_path)]) = (Ok tt, st2) ->
        create_literature_note_from_entry e output_dir st2 = (Raise x, st3) ->
        print_raises (fst st3) (Stderr (msg_file_error file_path (exn_text x)))
          = None ->
        process_bib_file file_path output_dir st =
          (Ok tt, (fst st3,
                   snd st3 ++ [Stderr (msg_file_error file_path (exn_text x))]))).
Proof.
  split; [|split; [|split; [|split]]].
  - intros p cause. repeat split.
  - intros e post output_dir st f bibtex w x Hf Hd Hw Hx Hp.
    unfold process_entries. rewrite for_each_cons, create_note_eq, Hf, Hd.
    cbv zeta. rewrite Hw, Hx. unfold print_err. rewrite emit_ok by exact Hp.
    reflexivity.
  - intros file_path output_dir st entries Hex Hp Hload Hne Hrun.
    rewrite process_bib_file_eq, Hex. cbn [negb]. unfold print at 1.
    rewrite emit_ok by exact Hp. cbv zeta. cbn [fst]. rewrite Hload.
    destruct (process_entries_attempts output_dir entries
                (fst st, snd st ++ [Stdout (msg_processing file_path)]) Hrun)
      as (w & events & Hruns & Hev).
    destruct entries as [|e0 es]; [congruence|].
    rewrite Hruns. cbn [snd]. rewrite <- app_assoc. eauto.
  - intros e output_dir st f bibtex w x Hf Hd Hw Hx.
    rewrite create_note_eq, Hf, Hd. cbv zeta. rewrite Hw, Hx. reflexivity.
  - intros file_path output_dir st pre e post x st2 st3 Hex Hp Hload Hpre Hx Hq.
    rewrite process_bib_file_eq, Hex. cbn [negb]. unfold print at 1.
    rewrite emit_ok by exact Hp. cbv zeta. cbn [fst]. rewrite Hload.
    destruct (pre ++ e :: post) as [|e0 es] eqn:Hl.
    { exfalso. exact (app_cons_not_nil _ _ _ (eq_sym Hl)). }
    rewrite <- Hl. unfold process_entries in *.
    rewrite (for_each_raise pre e post _ x _ _ _ Hpre Hx).
    unfold print_err. rewrite emit_ok by exact Hq. reflexivity.
Qed.

Lemma nul_entry_raises st :
  @create_literature_note_from_entry ascii_case Mem.env Runs.nul_entry Runs.notes st
    = (Raise (OtherError (lit "embedded null byte")), st).
Proof.
  rewrite create_note_eq.
  assert (exists f, @extract ascii_case Runs.nul_entry = Ok f
                    /\ Mem.has_nul (@output_path_of Mem.env Runs.notes f) = true)
    as (f & -> & Hn) by (eexists; split; vm_compute; reflexivity).
  destruct (@dumps Mem.env Runs.nul_entry) as [bibtex|] eqn:Hd;
    [|vm_compute in Hd; discriminate Hd].
  cbv zeta. change (@write_text Mem.env) with Mem.write. unfold Mem.write.
  rewrite Hn. destruct st. reflexivity.
Qed.

Lemma record_failures_witness :
  (exists w events,
     @process_bib_file ascii_case Mem.env Runs.refs Runs.notes
       (Runs.start Runs.fs_blocked)
     = (Ok tt, (w, [Stdout (msg_processing Runs.refs)] ++ events))
     /\ Forall2 (@attempt_event ascii_case Mem.env Runs.notes)
          [Runs.first_entry; Runs.second_entry] events)
  /\ @process_bib_file ascii_case Mem.env Runs.refs Runs.notes
       (Runs.start Runs.fs_nul)
     = (Ok tt, (Runs.fs_nul,
                [Stdout (msg_processing Runs.refs);
                 Stderr (msg_file_error Runs.refs (lit "embedded null byte"))])).
Proof.
  destruct (@record_failures ascii_case Mem.env) as (_ & _ & Hio & _ & Hother).
  split.
  - apply (Hio Runs.refs Runs.notes (Runs.start Runs.fs_blocked)
             [Runs.first_entry; Runs.second_entry]).
    + vm_compute. reflexivity.
    + vm_compute. reflexivity.
    + vm_compute. reflexivity.
    + discriminate.
    + cbn [io_only_run].
      entry_step. split; [settle|].
      entry_step. split; [settle|]. exact I.
  - apply (Hother Runs.refs Runs.notes (Runs.start Runs.fs_nul)
             [] Runs.nul_entry [Runs.second_entry]
             (OtherError (lit "embedded null byte"))
             (Runs.fs_nul, [Stdout (msg_processing Runs.refs)])
             (Runs.fs_nul, [Stdout (msg_processing Runs.refs)])).
    + vm_compute. reflexivity.
    + vm_compute. reflexivity.
    + vm_compute. reflexivity.
    + reflexivity.
    + apply nul_entry_raises.
    + vm_compute. reflexivity.
Defined.

(** C7 as it is worded fails. In a file of two entries whose first one
    has a NUL character in its title, the write of the first note raises
    a [ValueError]; the file is reported as failed and the second entry,
    whose note can be written, is never attempted. *)
Lemma isolation_claim_fails :
  ~ exists U : UnicodeCase,
      @isolation_claim U Mem.env (Runs.start Runs.fs_nul) Runs.refs Runs.notes.
Proof.
  intros (U & H).
  specialize (H [Runs.nul_entry; Runs.second_entry] eq_refl eq_refl
                Runs.second_entry (or_intror (or_introl eq_refl))).
  destruct H as (ev & Hin & f & Hf & Hev).
  vm_compute in Hin.
  destruct Hin as [<-|[<-|[]]]; destruct Hev as [Hev|[cause Hev]];
    vm_compute in Hev; discriminate Hev.
Qed.

Example blocked_run :
  log_after (@process_bib_file ascii_case Mem.env Runs.refs Runs.notes
               (Runs.start Runs.fs_blocked))
  = [Stdout (msg_processing Runs.refs);
     Stderr (msg_write_error (lit "notes/First (a).md")
               (lit "[Errno 21] Is a directory"));
     Stdout (msg_created (lit "notes/Second (b).md"))].
Proof. vm_compute. reflexivity. Qed.

Section FileFacts.
Context {U : UnicodeCase} {E : Env}.


End FileFacts.




Example ascii_output_run :
  @main ascii_case AsciiOut.env [Runs.broken; Runs.refs] Runs.notes
    (Runs.fs_broken, [])
  = (Raise (OtherError (lit "'ascii' codec can't encode character")),
     (Runs.fs_broken, [])).
Proof. vm_compute. reflexivity. Qed.

(** The notes of the two entries are written, and the batch goes on
    after the file that the parser rejects. *)
Example two_files_run :
  @main ascii_case Mem.env [Runs.refs; Runs.more] Runs.notes (Runs.start Runs.fs_two)
  = (Ok tt,
     (<[ lit "notes/Second (b).md" :=
           Mem.Text (md_content
             {| bib_key := lit "b"; title := lit "Second"; journal := [];
                doi := []; url := []; year := lit "n.d."; tags := [];
                author_list := []; authors_body_formatted := [];
                abstract := [] |}
             (lit "@article{b," ++ [nl] ++ lit " title = {Second}," ++ [nl]
              ++ lit "}" ++ [nl; nl])) ]>
        (<[ lit "notes/First (a).md" :=
              Mem.Text (md_content
                {| bib_key := lit "a"; title := lit "First"; journal := [];
                   doi := []; url := []; year := lit "n.d."; tags := [];
                   author_list := []; authors_body_formatted := [];
                   abstract := [] |}
                (lit "@article{a," ++ [nl] ++ lit " title = {First}," ++ [nl]
                 ++ lit "}" ++ [nl; nl])) ]>
           Runs.fs_two),
      [Stdout (msg_processing Runs.refs);
       Stdout (msg_created (lit "notes/First (a).md"));
       Stdout (msg_created (lit "notes/Second (b).md"));
       Stderr (msg_not_found Runs.more);
       Stdout msg_complete])).
Proof. vm_compute. reflexivity. Qed.

Example broken_then_refs_run :
  log_after (@main ascii_case Mem.env [Runs.broken; Runs.refs] Runs.notes
               (Runs.start Runs.fs_broken))
  = [Stdout (msg_processing Runs.broken);
     Stderr (msg_file_error Runs.broken (lit "Expecting an entry"));
     Stdout (msg_processing Runs.refs);
     Stdout (msg_created (lit "notes/First (a).md"));
     Stdout (msg_created (lit "notes/Second (b).md"));
     Stdout msg_complete].
Proof. vm_compute. reflexivity. Qed.

(** The scenario of the specification, end to end. *)
Example end_to_end :
  let e : entry :=
    {[ lit "ENTRYTYPE" := lit "article" ; lit "ID" := lit "doe2020" ;
       lit "title" := lit "A {Study} of X" ;
       lit "author" := lit "Jane Doe and John Smith" ;
       lit "year" := lit "2020" ; lit "keywords" := lit "foo-bar" ]} in
  exists f,
    @extract ascii_case e = Ok f
    /\ file_name f = lit "A Study of X (doe2020).md"
    /\ front_matter f =
         lit "---" ++ [nl]
         ++ lit "title: " ++ [dq] ++ lit "A Study of X" ++ [dq; nl]
         ++ lit "author:" ++ [nl]
         ++ lit "  - Jane Doe" ++ [nl] ++ lit "  - John Smith" ++ [nl]
         ++ lit "year: 2020" ++ [nl]
         ++ lit "tags:" ++ [nl] ++ lit "  - Foo/Bar" ++ [nl]
         ++ lit "---" ++ [nl; nl]
    /\ heading f = lit "# A Study of X" ++ [nl; nl].
Proof. eexists. repeat split; vm_compute; reflexivity. Qed.

(* ================================================================== *)
(** * Further properties of the script *)
(* ================================================================== *)

(** ** Titles and file names *)

Lemma without_id cls s :
  (forall c, In c s -> cls c = false) -> without cls s = s.
Proof.
  induction s as [|c s IH]; intros H; [reflexivity|].
  unfold without in *. cbn [List.filter]. rewrite (H c) by (left; reflexivity).
  cbn [negb]. rewrite IH; [reflexivity|]. intros d Hd. apply H. right. exact Hd.
Qed.

Lemma without_incl cls s c : In c (without cls s) -> In c s.
Proof. unfold without. intros H. apply filter_In in H. tauto. Qed.

Lemma without_idem cls s : without cls (without cls s) = without cls s.
Proof. apply without_id. intros c. apply without_clean. Qed.

Lemma without_length cls s : (length (without cls s) <= length s)%nat.
Proof.
  unfold without. induction s as [|c s IH]; [reflexivity|].
  cbn [List.filter]. destruct (negb (cls c)); simpl; lia.
Qed.

Lemma one_of_in cs c : Re.one_of cs c = true <-> In c cs.
Proof.
  unfold Re.one_of. rewrite existsb_exists. split.
  - intros (d & Hd & Heq). apply N.eqb_eq in Heq. subst. exact Hd.
  - intros H. exists c. split; [exact H|apply N.eqb_refl].
Qed.

Lemma one_of_not_in cs c : ~ In c cs -> Re.one_of cs c = false.
Proof.
  intros H. destruct (Re.one_of cs c) eqn:Hc; [|reflexivity].
  apply one_of_in in Hc. contradiction.
Qed.

Lemma clean_title_eq t : clean_title t = without (Re.one_of (lit "{}")) t.
Proof. unfold clean_title, re_braces. apply sub_one_delete. Qed.

(** A string without whitespace at its ends is its own [strip]. *)
Lemma strip_fixed s : no_space_at_ends s -> strip s = s.
Proof.
  intros [Hhead Hlast]. unfold strip.
  assert (lstrip s = s) as ->.
  { unfold lstrip. destruct s as [|c s']; [reflexivity|]. simpl.
    rewrite (Hhead c s' eq_refl). reflexivity. }
  unfold rstrip. destruct (rev s) as [|c r] eqn:Hr.
  - apply (f_equal (@rev N)) in Hr. rewrite rev_involutive in Hr. exact (eq_sym Hr).
  - apply (f_equal (@rev N)) in Hr. rewrite rev_involutive in Hr. simpl in Hr.
    simpl. rewrite (Hlast c (rev r) Hr). simpl. exact (eq_sym Hr).
Qed.

Lemma strip_idem s : strip (strip s) = strip s.
Proof. apply strip_fixed, strip_no_space_at_ends. Qed.

(** X1. [clean_title] deletes the braces and nothing else: what it
    returns is the title without its braces, the other characters in
    their order; a title without braces is returned as it is, cleaning
    twice is cleaning once, and the part of the file name made from a
    cleaned title holds no brace either. *)
Theorem clean_title_spec :
  forall t,
    clean_title t = List.filter (fun c => negb ((c =? 123) || (c =? 125))) t
    /\ ~ In 123 (clean_title t)
    /\ ~ In 125 (clean_title t)
    /\ (~ In 123 t -> ~ In 125 t -> clean_title t = t)
    /\ clean_title (clean_title t) = clean_title t
    /\ (length (clean_title t) <= length t)%nat
    /\ ~ In 123 (sanitize_filename (clean_title t))
    /\ ~ In 125 (sanitize_filename (clean_title t)).
Proof.
  intros t.
  assert (forall c, In c (lit "{}") -> ~ In c (clean_title t)) as Hno.
  { intros c Hc. rewrite clean_title_eq. apply without_not_in, one_of_in, Hc. }
  assert (forall c, In c (lit "{}") -> ~ In c (sanitize_filename (clean_title t)))
    as Hno'.
  { intros c Hc H. rewrite sanitize_filename_eq in H.
    apply strip_incl, firstn_incl, without_incl in H. exact (Hno c Hc H). }
  repeat split.
  - rewrite clean_title_eq. unfold without. apply filter_ext. intros c.
    unfold Re.one_of. simpl. rewrite orb_false_r. reflexivity.
  - apply Hno. vm_compute. tauto.
  - apply Hno. vm_compute. tauto.
  - intros H1 H2. rewrite clean_title_eq. apply without_id. intros c Hc.
    apply one_of_not_in. intros [<-|[<-|[]]]; contradiction.
  - rewrite !clean_title_eq. apply without_idem.
  - rewrite clean_title_eq. apply without_length.
  - apply Hno'. vm_compute. tauto.
  - apply Hno'. vm_compute. tauto.
Qed.

Lemma clean_title_spec_witness :
  clean_title (lit "A Study of X") = lit "A Study of X".
Proof.
  destruct (clean_title_spec (lit "A Study of X")) as (_ & _ & _ & H & _).
  apply H; vm_compute; intros H0; repeat destruct H0 as [H0|H0]; try discriminate H0;
    exact H0.
Defined.

(** X2. [sanitize_filename] is idempotent: a sanitized name is left as
    it is. *)
Theorem sanitize_filename_idem :
  forall name,
    sanitize_filename (sanitize_filename name) = sanitize_filename name.
Proof.
  intros name. rewrite (sanitize_filename_eq (sanitize_filename name)).
  rewrite without_id.
  - rewrite firstn_all2 by apply sanitize_filename_length.
    rewrite sanitize_filename_eq. apply strip_idem.
  - intros c Hc. apply one_of_not_in. intros Hill.
    exact (sanitize_filename_legal name c Hill Hc).
Qed.

(** ** Keywords *)

Lemma segments_cons cls s : exists seg segs, segments cls s = seg :: segs.
Proof.
  induction s as [|c s (seg & segs & IH)]; simpl; [eauto|].
  destruct (cls c); [eauto|]. rewrite IH. simpl. eauto.
Qed.

(** The segments of two strings with a separator between them. *)
Lemma segments_app cls a c b :
  cls c = true ->
  segments cls (a ++ c :: b) = segments cls a ++ segments cls b.
Proof.
  intros Hc. induction a as [|x a IH]; simpl.
  - rewrite Hc. reflexivity.
  - rewrite IH. destruct (cls x); [reflexivity|].
    destruct (segments_cons cls a) as (seg & segs & ->). reflexivity.
Qed.

Lemma forallb_blank_segments cls s :
  forallb blank (segments cls s) = forallb (fun c => isspace c || cls c) s.
Proof.
  induction s as [|c s IH]; [reflexivity|]. cbn [segments forallb].
  destruct (cls c).
  - cbn [forallb]. rewrite IH, orb_true_r. reflexivity.
  - rewrite orb_false_r, <- IH.
    destruct (segments_cons cls s) as (seg & segs & ->).
    cbn [push forallb]. unfold blank at 1. cbn [forallb].
    rewrite andb_assoc. reflexivity.
Qed.

Lemma filter_negb_nil {A} (f : A -> bool) l :
  List.filter (fun x => negb (f x)) l = [] <-> forallb f l = true.
Proof.
  induction l as [|x l IH]; simpl; [tauto|].
  destruct (f x); simpl; [exact IH|split; discriminate].
Qed.

Section KeywordFacts.
Context {U : UnicodeCase}.

(** X3. The tags of two keyword strings put together with a semicolon
    or a comma are the tags of the first followed by the tags of the
    second. *)
Theorem format_tags_app :
  forall a c b,
    is_separator c = true ->
    format_tags (a ++ c :: b) = format_tags a ++ format_tags b.
Proof.
  intros a c b Hc. rewrite !format_tags_eq. unfold tags_of_keywords.
  rewrite (segments_app (Re.one_of (lit ";,")) a c b Hc).
  rewrite List.filter_app, List.map_app.
  reflexivity.
Qed.

(** X4. A keyword string gives no tag exactly when it holds nothing but
    whitespace, semicolons and commas; the front matter of an entry has
    a tag block exactly when its keywords give a tag. *)
Theorem format_tags_nil :
  (forall keywords_str,
     format_tags keywords_str = [] <->
     forallb (fun c => isspace c || is_separator c) keywords_str = true)
  /\ (forall e,
      exists f,
        extract e = Ok f
        /\ (fm_tags f = [] <->
            forallb (fun c => isspace c || is_separator c)
                    (get e "keywords" []) = true)).
Proof.
  assert (forall s, format_tags s = [] <->
            forallb (fun c => isspace c || is_separator c) s = true) as H.
  { intros s. rewrite format_tags_eq. unfold tags_of_keywords, is_separator.
    rewrite <- (forallb_blank_segments (Re.one_of (lit ";,")) s).
    rewrite <- filter_negb_nil. split.
    - intros Hm. exact (map_eq_nil _ _ Hm).
    - intros ->. reflexivity. }
  split; [exact H|].
  intros e. destruct (extract_total e) as [f Hf]. exists f. split; [exact Hf|].
  destruct (extract_fields e f Hf) as (_ & _ & _ & _ & _ & _ & Ht & _).
  rewrite <- H, <- Ht. unfold fm_tags, when.
  destruct (tags f); [tauto|]. split; discriminate.
Qed.

End KeywordFacts.

Lemma format_tags_app_witness :
  @format_tags ascii_case (lit "a-b" ++ 59 :: lit " c")
  = @format_tags ascii_case (lit "a-b") ++ @format_tags ascii_case (lit " c").
Proof. apply (@format_tags_app ascii_case). vm_compute. reflexivity. Defined.

(** ** Line feeds *)

(** The collapse read from the left: a whitespace run with a line feed
    gives one space, any other character is kept. *)
Lemma collapse_scan c s :
  collapse_newline_runs (c :: s) =
    if isspace c && existsb is_nl (c :: take_while isspace s)
    then space :: collapse_newline_runs (drop_while isspace s)
    else c :: collapse_newline_runs s.
Proof.
  destruct (isspace c) eqn:Hc; cbn [andb].
  - destruct (existsb is_nl (c :: take_while isspace s)) eqn:Hn.
    + apply collapse_hit; assumption.
    + apply collapse_miss, collapse_run_unchanged. rewrite Hc. cbn [andb].
      rewrite (take_while_ext _ isspace)
        by (intros d; apply same_class_space; exact Hc).
      exact Hn.
  - apply collapse_miss, collapse_run_unchanged. rewrite Hc. reflexivity.
Qed.

Lemma existsb_is_nl s : existsb is_nl s = true <-> In nl s.
Proof.
  rewrite existsb_exists. unfold is_nl. split.
  - intros (c & Hc & Heq). apply N.eqb_eq in Heq. subst. exact Hc.
  - intros H. exists nl. split; [exact H|reflexivity].
Qed.

Lemma take_while_incl p s c : In c (take_while p s) -> In c s.
Proof.
  intros H. rewrite <- (take_drop_while p s). apply in_or_app. left. exact H.
Qed.

Lemma drop_while_incl p s c : In c (drop_while p s) -> In c s.
Proof.
  intros H. rewrite <- (take_drop_while p s). apply in_or_app. right. exact H.
Qed.

(** What the collapse gives holds the characters of the string, and
    spaces. *)
Lemma collapse_incl s : forall c,
  In c (collapse_newline_runs s) -> c = space \/ In c s.
Proof.
  induction s as [s IH] using (induction_ltof1 _ (@length char)).
  unfold ltof in IH. intros x. destruct s as [|c s]; [intros []|].
  rewrite collapse_scan.
  destruct (isspace c && existsb is_nl (c :: take_while isspace s)).
  - intros [<-|H]; [left; reflexivity|].
    apply IH in H as [->|H].
    + left; reflexivity.
    + right. right. exact (drop_while_incl _ _ _ H).
    + pose proof (drop_while_length isspace s). simpl. lia.
  - intros [<-|H]; [right; left; reflexivity|].
    apply IH in H as [->|H]; [left; reflexivity|right; right; exact H|].
    simpl. lia.
Qed.

(** No line feed is left. *)
Lemma collapse_no_nl s : ~ In nl (collapse_newline_runs s).
Proof.
  induction s as [s IH] using (induction_ltof1 _ (@length char)).
  unfold ltof in IH. destruct s as [|c s]; [intros []|].
  rewrite collapse_scan.
  destruct (isspace c && existsb is_nl (c :: take_while isspace s)) eqn:Hm.
  - intros [H|H]; [discriminate H|]. revert H. apply IH.
    pose proof (drop_while_length isspace s). simpl. lia.
  - intros [H|H]; [|revert H; apply IH; simpl; lia].
    subst c. vm_compute in Hm. discriminate Hm.
Qed.

(** A string without a line feed is not changed. *)
Lemma collapse_fixed s : ~ In nl s -> collapse_newline_runs s = s.
Proof.
  induction s as [|c s IH]; intros H; [reflexivity|].
  rewrite collapse_scan.
  assert (existsb is_nl (c :: take_while isspace s) = false) as ->.
  { destruct (existsb is_nl (c :: take_while isspace s)) eqn:Hn; [|reflexivity].
    apply existsb_is_nl in Hn. exfalso. apply H.
    destruct Hn as [Hn|Hn]; [left; exact Hn|right; exact (take_while_incl _ _ _ Hn)]. }
  rewrite andb_false_r, IH; [reflexivity|]. intros Hs. apply H. right. exact Hs.
Qed.

Lemma in_join sep parts p c :
  In p parts -> In c p -> In c (join sep parts).
Proof.
  induction parts as [|q parts IH]; intros Hp Hc; [destruct Hp|].
  destruct parts as [|q' parts].
  - destruct Hp as [->|[]]. exact Hc.
  - change (In c (q ++ sep ++ join sep (q' :: parts))).
    destruct Hp as [->|Hp].
    + apply in_or_app. left. exact Hc.
    + apply in_or_app. right. apply in_or_app. right. apply IH; assumption.
Qed.

Lemma in_split_piece sep s p c :
  In p (PyStr.split sep s) -> In c p -> In c s.
Proof.
  intros Hp Hc. unfold PyStr.split in Hp.
  rewrite <- (join_split_max (length s) sep s). exact (in_join _ _ _ _ Hp Hc).
Qed.

(** X5. No line feed is left in what the script cleans with its line
    feed pattern: not in a name that [parse_authors] returns, not in the
    abstract of the note. *)
Theorem no_line_feed_left {U : UnicodeCase} :
  (forall authors_str name, In name (parse_authors authors_str) -> ~ In nl name)
  /\ (forall a, ~ In nl (clean_abstract a))
  /\ (forall e,
      exists f,
        extract e = Ok f
        /\ ~ In nl (abstract f)
        /\ Forall (fun name => ~ In nl name) (author_list f)).
Proof.
  assert (forall s name, In name (parse_authors s) -> ~ In nl name) as Ha.
  { intros s name H Hnl. rewrite parse_authors_eq in H.
    unfold parse_authors_spec in H. destruct s as [|c s]; [destruct H|].
    apply in_map_iff in H as (piece & <- & Hp).
    apply strip_incl in Hnl. apply (in_split_piece _ _ _ _ Hp) in Hnl.
    exact (collapse_no_nl _ Hnl). }
  assert (forall a, ~ In nl (clean_abstract a)) as Hb.
  { intros a H. rewrite clean_abstract_eq in H. apply strip_incl in H.
    exact (collapse_no_nl _ H). }
  split; [exact Ha|]. split; [exact Hb|].
  intros e. destruct (extract_total e) as [f Hf]. exists f.
  destruct (extract_fields e f Hf) as (_ & _ & _ & _ & _ & _ & _ & Hl & Hab).
  split; [exact Hf|]. rewrite Hab, Hl. split; [apply Hb|].
  apply List.Forall_forall. intros name. apply Ha.
Qed.

Lemma no_line_feed_left_witness :
  ~ In nl (lit "John Smith").
Proof.
  destruct (@no_line_feed_left ascii_case) as (H & _).
  apply (H (lit "Jane Doe" ++ [nl] ++ lit "   and John Smith")).
  vm_compute. tauto.
Defined.

(** X6. Cleaning an abstract twice is cleaning it once. *)
Theorem clean_abstract_idem :
  forall a, clean_abstract (clean_abstract a) = clean_abstract a.
Proof.
  intros a. rewrite (clean_abstract_eq (clean_abstract a)).
  rewrite collapse_fixed.
  - rewrite clean_abstract_eq. apply strip_idem.
  - intros H. rewrite clean_abstract_eq in H. apply strip_incl in H.
    exact (collapse_no_nl _ H).
Qed.

(** ** Authors *)

Lemma find_sep_unfold sep s :
  find_sep sep s =
    match strip_prefix sep s with
    | Some rest => Some ([], rest)
    | None =>
        match s with
        | [] => None
        | c :: s' =>
            match find_sep sep s' with
            | Some (pre, rest) => Some (c :: pre, rest)
            | None => None
            end
        end
    end.
Proof. destruct s; reflexivity. Qed.

Lemma strip_prefix_complete sep r : strip_prefix sep (sep ++ r) = Some r.
Proof.
  induction sep as [|a sep IH]; simpl; [destruct r; reflexivity|].
  rewrite N.eqb_refl. exact IH.
Qed.

(** An occurrence of the separator is found. *)
Lemma occurs_find sep s : occurs sep s -> find_sep sep s <> None.
Proof.
  intros (pre & rest & ->). induction pre as [|c pre IH].
  - rewrite find_sep_unfold. simpl. rewrite strip_prefix_complete. discriminate.
  - rewrite find_sep_unfold.
    destruct (strip_prefix sep ((c :: pre) ++ sep ++ rest)); [discriminate|].
    simpl. destruct (find_sep sep (pre ++ sep ++ rest)) as [[? ?]|];
      [discriminate|exact IH].
Qed.

(** The text before the first occurrence holds no occurrence. *)
Lemma find_sep_first sep s : forall pre rest,
  sep <> [] ->
  find_sep sep s = Some (pre, rest) -> find_sep sep pre = None.
Proof.
  induction s as [|c s IH]; intros pre rest Hne H; rewrite find_sep_unfold in H.
  - destruct sep as [|a sep]; [congruence|]. discriminate H.
  - destruct (strip_prefix sep (c :: s)) as [r|] eqn:Hp.
    + injection H as <- _. destruct sep; [congruence|reflexivity].
    + destruct (find_sep sep s) as [[pre' rest']|] eqn:Hf; [|discriminate].
      injection H as <- <-. rewrite find_sep_unfold.
      destruct (strip_prefix sep (c :: pre')) as [r|] eqn:Hp'.
      * exfalso. apply strip_prefix_some in Hp'. apply find_sep_some in Hf.
        assert (c :: s = sep ++ (r ++ sep ++ rest')) as Hs.
        { rewrite Hf, app_comm_cons, Hp', <- app_assoc. reflexivity. }
        rewrite Hs, strip_prefix_complete in Hp. discriminate Hp.
      * rewrite (IH pre' rest' Hne eq_refl). reflexivity.
Qed.

Lemma find_sep_shorter sep s pre rest :
  sep <> [] -> find_sep sep s = Some (pre, rest) ->
  (length rest < length s)%nat.
Proof.
  intros Hne H. apply find_sep_some in H. subst s. rewrite !length_app.
  destruct sep; [congruence|]. simpl. lia.
Qed.

Lemma split_max_pieces sep : sep <> [] ->
  forall n s p,
    (length s <= n)%nat -> In p (split_max n sep s) -> find_sep sep p = None.
Proof.
  intros Hne. induction n as [|n IH]; intros s p Hn Hp.
  - destruct s; [|simpl in Hn; lia]. destruct Hp as [<-|[]].
    destruct sep; [congruence|reflexivity].
  - cbn [split_max] in Hp.
    destruct (find_sep sep s) as [[pre rest]|] eqn:Hf.
    + destruct Hp as [<-|Hp]; [exact (find_sep_first _ _ _ _ Hne Hf)|].
      apply (IH rest p); [|exact Hp].
      pose proof (find_sep_shorter _ _ _ _ Hne Hf). lia.
    + destruct Hp as [<-|[]]. exact Hf.
Qed.

(** [strip] keeps a part of the string in one piece. *)
Lemma strip_middle s : exists a b, s = a ++ strip s ++ b.
Proof.
  unfold strip. destruct (rstrip_suffix (lstrip s)) as (t & Ht & _).
  exists (take_while isspace s), t. rewrite <- Ht. unfold lstrip.
  symmetry. apply take_drop_while.
Qed.

Lemma occurs_strip sep s : occurs sep (strip s) -> occurs sep s.
Proof.
  intros (pre & rest & H). destruct (strip_middle s) as (a & b & Hs).
  exists (a ++ pre), (rest ++ b). rewrite Hs at 1. rewrite H.
  rewrite <- !app_assoc. reflexivity.
Qed.

Lemma blank_no_and t : blank t = true -> find_sep (lit " and ") t = None.
Proof.
  intros Hb. destruct (find_sep (lit " and ") t) as [[pre rest]|] eqn:Hf;
    [|reflexivity].
  apply find_sep_some in Hf. unfold blank in Hb.
  rewrite forallb_forall in Hb. specialize (Hb 97).
  assert (isspace 97 = true) as H; [|vm_compute in H; discriminate H].
  apply Hb. rewrite Hf. apply in_or_app. right. right. left. reflexivity.
Qed.

(** X7. [parse_authors] returns no name for the empty string only: any
    other string gives at least one name, and a string of whitespace
    gives one empty name. So the front matter has an author block
    exactly when the author field is present and not empty. *)
Theorem parse_authors_nil {U : UnicodeCase} :
  (forall authors_str, parse_authors authors_str = [] <-> authors_str = [])
  /\ (forall authors_str,
        authors_str <> [] -> blank authors_str = true ->
        parse_authors authors_str = [[]])
  /\ (forall e,
      exists f,
        extract e = Ok f
        /\ (fm_authors f = [] <-> get e "author" [] = [])).
Proof.
  assert (forall s, parse_authors s = [] <-> s = []) as Hnil.
  { intros s. split; [|intros ->; reflexivity].
    destruct s as [|c s]; [reflexivity|]. unfold parse_authors, PyStr.split.
    cbn [truthy negb].
    destruct (split_max_cons (length (Re.sub re_newline_run [space] (c :: s)))
                (lit " and ") (Re.sub re_newline_run [space] (c :: s)))
      as (h & t & ->). discriminate. }
  split; [exact Hnil|]. split.
  - intros s Hne Hb. rewrite parse_authors_eq. unfold parse_authors_spec.
    destruct s as [|c s]; [congruence|].
    assert (blank (collapse_newline_runs (c :: s)) = true) as Hbc.
    { unfold blank in *. rewrite forallb_forall in *. intros x Hx.
      apply collapse_incl in Hx as [->|Hx]; [reflexivity|exact (Hb x Hx)]. }
    assert (PyStr.split (lit " and ") (collapse_newline_runs (c :: s))
            = [collapse_newline_runs (c :: s)]) as ->.
    { unfold PyStr.split.
      destruct (length (collapse_newline_runs (c :: s))); [reflexivity|].
      cbn [split_max]. rewrite (blank_no_and _ Hbc). reflexivity. }
    cbn [List.map]. rewrite (strip_blank _ Hbc). reflexivity.
  - intros e. destruct (extract_total e) as [f Hf]. exists f. split; [exact Hf|].
    destruct (extract_fields e f Hf) as (_ & _ & _ & _ & _ & _ & _ & Hl & _).
    specialize (Hnil (get e "author" [])). rewrite <- Hl in Hnil.
    unfold fm_authors, when.
    destruct (author_list f); [tauto|].
    split; [discriminate|]. intros H. apply Hnil in H. discriminate H.
Qed.

Lemma parse_authors_nil_witness :
  parse_authors [space; nl; space] = [[]].
Proof.
  destruct (@parse_authors_nil ascii_case) as (_ & H & _).
  apply H; [discriminate|vm_compute; reflexivity].
Defined.

(** X8. No name that [parse_authors] returns holds the separator
    " and ": the split leaves no occurrence of it inside a piece. *)
Theorem parse_authors_names_without_separator :
  forall authors_str name,
    In name (parse_authors authors_str) -> ~ occurs (lit " and ") name.
Proof.
  intros s name H Hocc. rewrite parse_authors_eq in H.
  unfold parse_authors_spec in H. destruct s as [|c s]; [destruct H|].
  apply in_map_iff in H as (piece & <- & Hp).
  apply occurs_strip, occurs_find in Hocc. apply Hocc.
  unfold PyStr.split in Hp.
  apply (split_max_pieces (lit " and ")) with (3 := Hp); [discriminate|lia].
Qed.

Lemma parse_authors_names_without_separator_witness :
  ~ occurs (lit " and ") (lit "Smith").
Proof.
  apply (parse_authors_names_without_separator (lit "Doe and Smith and Roe")).
  vm_compute. tauto.
Defined.

(** ** Fields *)

(** X9. When the year field is absent or empty, the resolved year is a
    prefix of the date field (of the sentinel if there is no date field)
    and holds no hyphen. *)
Theorem year_from_date :
  forall e y,
    truthy (get e "year" []) = false ->
    resolve_year e = Ok y ->
    ~ In hyphen y
    /\ exists rest, get e "date" (lit "n.d.") = y ++ rest.
Proof.
  intros e y Hy H. rewrite resolve_year_eq, Hy in H. injection H as <-.
  unfold before_hyphen. split.
  - intros Hin.
    pose proof (take_while_all (fun c => negb (c =? hyphen))
                  (get e "date" (lit "n.d."))) as Hall.
    rewrite forallb_forall in Hall. specialize (Hall hyphen Hin).
    discriminate Hall.
  - eexists. symmetry. apply take_drop_while.
Qed.

Lemma year_from_date_witness :
  ~ In hyphen (lit "2021")
  /\ exists rest, lit "2021-05-01" = lit "2021" ++ rest.
Proof.
  destruct (year_from_date {[ lit "date" := lit "2021-05-01" ]} (lit "2021"))
    as [H1 [rest H2]]; [vm_compute; reflexivity|vm_compute; reflexivity|].
  split; [exact H1|]. exists rest. exact H2.
Defined.

Lemma get_insert_ne (e : entry) k v key d :
  lit key <> k -> get (<[k := v]> e) key d = get e key d.
Proof.
  intros Hne. unfold get. rewrite lookup_insert_ne by congruence. reflexivity.
Qed.

Lemma get_delete_ne (e : entry) k key d :
  lit key <> k -> get (delete k e) key d = get e key d.
Proof.
  intros Hne. unfold get. rewrite lookup_delete_ne by congruence. reflexivity.
Qed.

(** Two entries with the same values under the keys that the script
    reads give the same fields. *)
Lemma extract_agree {U : UnicodeCase} (e1 e2 : entry) :
  (forall key d, In (lit key) known_keys -> get e1 key d = get e2 key d) ->
  extract e1 = extract e2.
Proof.
  intros Hg. unfold extract, resolve_year.
  rewrite (Hg "ID"%string) by (vm_compute; tauto).
  rewrite (Hg "title"%string) by (vm_compute; tauto).
  rewrite (Hg "journaltitle"%string) by (vm_compute; tauto).
  rewrite (Hg "journal"%string) by (vm_compute; tauto).
  rewrite (Hg "doi"%string) by (vm_compute; tauto).
  rewrite (Hg "url"%string) by (vm_compute; tauto).
  rewrite (Hg "year"%string) by (vm_compute; tauto).
  rewrite (Hg "date"%string) by (vm_compute; tauto).
  rewrite (Hg "keywords"%string) by (vm_compute; tauto).
  rewrite (Hg "author"%string) by (vm_compute; tauto).
  rewrite (Hg "abstract"%string) by (vm_compute; tauto).
  reflexivity.
Qed.

(** X10. The extraction reads eleven keys and nothing else: setting or
    removing any other key of an entry does not change the fields of the
    note. *)
Theorem extract_ignores_other_keys {U : UnicodeCase} :
  forall (e : entry) k v,
    ~ In k known_keys ->
    extract (<[k := v]> e) = extract e /\ extract (delete k e) = extract e.
Proof.
  intros e k v Hk.
  assert (forall key, In (lit key) known_keys -> lit key <> k) as Hne.
  { intros key Hin <-. exact (Hk Hin). }
  split; apply extract_agree; intros key d Hin;
    [apply get_insert_ne|apply get_delete_ne]; exact (Hne key Hin).
Qed.

Lemma extract_ignores_other_keys_witness :
  @extract ascii_case (<[ lit "publisher" := lit "ACM" ]> Runs.first_entry)
  = @extract ascii_case Runs.first_entry.
Proof.
  apply (@extract_ignores_other_keys ascii_case).
  vm_compute. intros H. repeat destruct H as [H|H]; try discriminate H; exact H.
Defined.

(** X11. The journal of a note is the field [journaltitle] when that
    field is present and not empty, and the field [journal] (or nothing)
    otherwise; the front matter has a journal line exactly when that
    journal is not empty. *)
Theorem journal_resolution {U : UnicodeCase} :
  forall e,
  exists f,
    extract e = Ok f
    /\ (forall j, lookup_key e "journaltitle" = Some j -> j <> [] -> journal f = j)
    /\ (absent e "journaltitle" \/ lookup_key e "journaltitle" = Some [] ->
        journal f = get e "journal" [])
    /\ (absent e "journaltitle" \/ lookup_key e "journaltitle" = Some [] ->
        absent e "journal" -> journal f = [])
    /\ (fm_journal f = [] <-> journal f = []).
Proof.
  intros e. destruct (extract_total e) as [f Hf]. exists f. split; [exact Hf|].
  destruct (extract_fields e f Hf) as (_ & _ & Hj & _).
  assert (absent e "journaltitle" \/ lookup_key e "journaltitle" = Some [] ->
          journal f = get e "journal" []) as Hfall.
  { intros [H|H]; rewrite Hj;
      [rewrite (get_absent _ _ _ H)|rewrite (get_present _ _ _ _ H)]; reflexivity. }
  split; [|split; [|split]].
  - intros j Hl Hne. rewrite Hj, (get_present _ _ _ _ Hl).
    destruct j; [congruence|reflexivity].
  - exact Hfall.
  - intros H Ha. rewrite (Hfall H). apply (get_absent _ _ _ Ha).
  - unfold fm_journal, when. destruct (journal f); [tauto|].
    split; discriminate.
Qed.

Lemma journal_resolution_witness :
  exists f,
    @extract ascii_case
      {[ lit "journaltitle" := [] ; lit "journal" := lit "Nature" ]} = Ok f
    /\ journal f = lit "Nature".
Proof.
  destruct (@journal_resolution ascii_case
              {[ lit "journaltitle" := [] ; lit "journal" := lit "Nature" ]})
    as (f & Hf & _ & H & _).
  exists f. split; [exact Hf|]. rewrite H; [vm_compute; reflexivity|].
  right. vm_compute. reflexivity.
Defined.

(** ** Notes, files and the batch *)

Section RunFacts.
Context {U : UnicodeCase} {E : Env}.

(** X12. [create_literature_note_from_entry] prints one line when it
    returns, the line of the written note or the line of the failed
    write, and prints nothing when it raises. It raises in four cases
    only: the serialization of the entry raises, of whatever class and
    before anything is written; the write raises an exception that is
    not an [IOError]; the note is written and its line cannot be
    printed, for a reason that is not an [IOError]; or the line of a
    failed write cannot be printed. An [IOError] of the line of a
    written note is reported as a failed write. *)
Theorem create_note_outcomes :
  forall e output_dir st,
    match create_literature_note_from_entry e output_dir st with
    | (Ok _, st') =>
        exists ev, snd st' = snd st ++ [ev] /\ attempt_event output_dir e ev
    | (Raise x, st') =>
        snd st' = snd st
        /\ ((dumps e = Raise x /\ st' = st)
            \/ exists f bibtex,
                 extract e = Ok f /\ dumps e = Ok bibtex
                 /\ let output_path := output_path_of output_dir f in
                    let r := write_text (fst st) output_path
                               (md_content f bibtex) in
                    let line_raises y :=
                      snd r = None
                      /\ print_raises (fst r) (Stdout (msg_created output_path))
                           = Some y in
                    fst st' = fst r
                    /\ ((snd r = Some x /\ is_IOError x = false)
                        \/ (line_raises x /\ is_IOError x = false)
                        \/ exists y,
                             is_IOError y = true
                             /\ (snd r = Some y \/ line_raises y)
                             /\ print_raises (fst r)
                                  (Stderr (msg_write_error output_path
                                             (exn_text y))) = Some x))
    end.
Proof.
  intros e output_dir st. rewrite create_note_eq.
  destruct (extract_total e) as [f Hf]. rewrite Hf.
  destruct (dumps e) as [bibtex|x] eqn:Hd; [|split; [reflexivity|left; tauto]].
  cbv zeta.
  assert (forall w y,
            is_IOError y = true ->
            match print_err (msg_write_error (output_path_of output_dir f)
                               (exn_text y)) (w, snd st) with
            | (Ok _, st') =>
                exists ev, snd st' = snd st ++ [ev] /\ attempt_event output_dir e ev
            | (Raise x, st') =>
                snd st' = snd st /\ fst st' = w
                /\ print_raises w
                     (Stderr (msg_write_error (output_path_of output_dir f)
                                (exn_text y))) = Some x
            end) as Hreport.
  { intros w y Hy. unfold print_err, emit. cbn [fst snd].
    destruct (print_raises w _) as [x|].
    - repeat split.
    - eexists. split; [reflexivity|]. exists f. split; [exact Hf|].
      right. eexists. reflexivity. }
  destruct (write_text (fst st) (output_path_of output_dir f) (md_content f bibtex))
    as [w [y|]] eqn:Hw; cbn [fst snd].
  - destruct (is_IOError y) eqn:Hy.
    + specialize (Hreport w y Hy).
      destruct (print_err _ (w, snd st)) as [[u|x] st']; [exact Hreport|].
      destruct Hreport as (Hlog & Hworld & Hp). split; [exact Hlog|].
      right. exists f, bibtex. cbv zeta. rewrite Hw. cbn [fst snd].
      split; [reflexivity|]. split; [reflexivity|]. split; [exact Hworld|].
      right. right. exists y.
      split; [exact Hy|]. split; [left; reflexivity|exact Hp].
    + split; [reflexivity|]. right. exists f, bibtex. cbv zeta. rewrite Hw.
      cbn [fst snd]. split; [reflexivity|]. split; [reflexivity|].
      split; [reflexivity|]. left. split; [reflexivity|exact Hy].
  - destruct (print_raises w (Stdout (msg_created (output_path_of output_dir f))))
      as [y|] eqn:Hl.
    + destruct (is_IOError y) eqn:Hy.
      * specialize (Hreport w y Hy).
        destruct (print_err _ (w, snd st)) as [[u|x] st']; [exact Hreport|].
        destruct Hreport as (Hlog & Hworld & Hp). split; [exact Hlog|].
        right. exists f, bibtex. cbv zeta. rewrite Hw. cbn [fst snd].
        split; [reflexivity|]. split; [reflexivity|]. split; [exact Hworld|].
        right. right. exists y.
        split; [exact Hy|]. split; [right; split; [reflexivity|exact Hl]|exact Hp].
      * split; [reflexivity|]. right. exists f, bibtex. cbv zeta. rewrite Hw.
        cbn [fst snd]. split; [reflexivity|]. split; [reflexivity|].
        split; [reflexivity|]. right. left.
        split; [split; [reflexivity|exact Hl]|exact Hy].
    + eexists. split; [reflexivity|]. exists f. split; [exact Hf|].
      left. reflexivity.
Qed.

Lemma create_note_log_grows e output_dir st :
  exists evs,
    log_after (create_literature_note_from_entry e output_dir st) = snd st ++ evs.
Proof.
  pose proof (create_note_outcomes e output_dir st) as H. unfold log_after.
  destruct (create_literature_note_from_entry e output_dir st) as [[u|x] st'];
    cbn [snd].
  - destruct H as (ev & -> & _). eauto.
  - destruct H as (-> & _). exists []. rewrite app_nil_r. reflexivity.
Qed.

Lemma for_each_log_grows {A} (body : A -> M unit) xs :
  (forall x st, exists evs, log_after (body x st) = snd st ++ evs) ->
  forall st, exists evs, log_after (for_each xs body st) = snd st ++ evs.
Proof.
  intros Hbody. induction xs as [|x xs IH]; intros st.
  - exists []. rewrite app_nil_r. reflexivity.
  - rewrite for_each_cons. destruct (Hbody x st) as (evs1 & H1).
    unfold log_after in *. destruct (body x st) as [[u|e] st']; cbn [snd] in H1.
    + destruct (IH st') as (evs2 & H2). cbn beta iota.
      rewrite H2, H1, <- app_assoc. eauto.
    + cbn [snd]. eauto.
Qed.

(** A line added to the output, or nothing when the stream raises. *)
Lemma emit_grows ev st :
  world_after (emit ev st) = fst st
  /\ exists evs,
       log_after (emit ev st) = snd st ++ evs
       /\ (fst (emit ev st) = Ok tt -> evs <> []).
Proof.
  unfold emit, world_after, log_after.
  destruct (print_raises (fst st) ev); cbn [fst snd]; (split; [reflexivity|]).
  - exists []. rewrite app_nil_r. split; [reflexivity|discriminate].
  - exists [ev]. split; [reflexivity|discriminate].
Qed.

(** What the [try] of [process_bib_file] gives for a file that cannot
    be loaded or holds no entry. *)
Lemma quiet_attempt file_path output_dir st1 :
  (exists x, load (fst st1) file_path = Raise x)
  \/ load (fst st1) file_path = Ok [] ->
  world_after
    (match
       match load (fst st1) file_path with
       | Raise x => (Raise x, st1)
       | Ok [] => print (msg_no_entries file_path) st1
       | Ok entries => process_entries entries output_dir st1
       end
     with
     | (Ok u, st2) => (Ok u, st2)
     | (Raise x, st2) => print_err (msg_file_error file_path (exn_text x)) st2
     end) = fst st1.
Proof.
  intros [[x H]|H]; rewrite H.
  - apply emit_grows.
  - unfold print.
    pose proof (emit_cases (Stdout (msg_no_entries file_path)) st1) as Hc.
    destruct (emit (Stdout (msg_no_entries file_path)) st1) as [[u|x] st2].
    + destruct Hc as [-> _]. reflexivity.
    + destruct Hc as [-> _]. apply emit_grows.
Qed.

(** X13. For an input file that does not exist, that cannot be loaded
    or that holds no entry, [process_bib_file] leaves the file system as
    it is, whether its lines can be printed or not; when they can, the
    file without entries is reported on the standard output, after the
    line that announces the file, and not as an error. *)
Theorem process_bib_file_without_entries :
  forall file_path output_dir st,
    (path_exists (fst st) file_path = false
     \/ (exists x, load (fst st) file_path = Raise x)
     \/ load (fst st) file_path = Ok []) ->
    world_after (process_bib_file file_path output_dir st) = fst st
    /\ msg_no_entries file_path =
         [0x2139; 0xFE0F] ++ lit " No BibTeX entries found in '" ++ file_path
         ++ lit "'."
    /\ (path_exists (fst st) file_path = true ->
        load (fst st) file_path = Ok [] ->
        print_raises (fst st) (Stdout (msg_processing file_path)) = None ->
        print_raises (fst st) (Stdout (msg_no_entries file_path)) = None ->
        process_bib_file file_path output_dir st =
          (Ok tt, (fst st, snd st ++ [Stdout (msg_processing file_path);
                                     Stdout (msg_no_entries file_path)]))).
Proof.
  intros file_path output_dir st H. rewrite process_bib_file_eq.
  split; [|split; [reflexivity|]].
  - destruct (path_exists (fst st) file_path) eqn:Hex; cbn [negb];
      [|apply emit_grows].
    unfold print at 1.
    pose proof (emit_cases (Stdout (msg_processing file_path)) st) as Hc.
    destruct (emit (Stdout (msg_processing file_path)) st) as [[u|x] st1].
    + destruct Hc as [-> _]. cbv zeta.
      rewrite quiet_attempt; [reflexivity|]. cbn [fst].
      destruct H as [H|H]; [discriminate H|exact H].
    + destruct Hc as [-> _]. reflexivity.
  - intros -> Hload Hp Hq. cbn [negb]. unfold print at 1.
    rewrite emit_ok by exact Hp. cbv zeta. cbn [fst]. rewrite Hload.
    unfold print. rewrite emit_ok by exact Hq. cbn [fst snd].
    rewrite <- app_assoc. reflexivity.
Qed.

(** What the [try] of [process_bib_file] adds to the output, with the
    line of its handler. *)
Lemma attempt_grows (attempt : result unit * state) (st1 : state)
    (file_path : str) :
  (exists evs, log_after attempt = snd st1 ++ evs) ->
  exists evs,
    log_after
      (match attempt with
       | (Ok u, st2) => (Ok u, st2)
       | (Raise x, st2) => emit (Stderr (msg_file_error file_path (exn_text x))) st2
       end) = snd st1 ++ evs.
Proof.
  intros (evs & H). unfold log_after in *.
  destruct attempt as [[u|x] st2]; cbn [snd] in H; [eauto|].
  destruct (emit_grows (Stderr (msg_file_error file_path (exn_text x))) st2)
    as (_ & evs3 & H3 & _).
  unfold log_after in H3. rewrite H3, H, <- app_assoc. eauto.
Qed.

(** X14. What has been printed stays: [process_bib_file] only adds lines
    to the output, also when it raises, and when it returns it has added
    at least one. *)
Theorem process_bib_file_prints :
  forall file_path output_dir st,
  exists evs,
    log_after (process_bib_file file_path output_dir st) = snd st ++ evs
    /\ (fst (process_bib_file file_path output_dir st) = Ok tt -> evs <> []).
Proof.
  intros file_path output_dir st. rewrite process_bib_file_eq.
  unfold print, print_err.
  destruct (negb (path_exists (fst st) file_path)); [apply emit_grows|].
  pose proof (emit_cases (Stdout (msg_processing file_path)) st) as Hc.
  destruct (emit (Stdout (msg_processing file_path)) st) as [[u|x] st1].
  2:{ destruct Hc as [-> _]. exists []. rewrite app_nil_r.
      split; [reflexivity|discriminate]. }
  destruct Hc as [-> _]. cbv zeta. cbn [fst].
  set (st1 := (fst st, snd st ++ [Stdout (msg_processing file_path)])).
  match goal with
  | |- exists evs, log_after ?t = _ /\ _ =>
      assert (exists evs, log_after t = snd st1 ++ evs) as (evs & H)
  end.
  { apply attempt_grows.
    destruct (load (fst st) file_path) as [[|e entries]|x].
    - destruct (emit_grows (Stdout (msg_no_entries file_path)) st1)
        as (_ & evs & Hevs & _). eauto.
    - apply (for_each_log_grows
               (fun e => create_literature_note_from_entry e output_dir)).
      intros e0 st0. apply create_note_log_grows.
    - exists []. rewrite app_nil_r. reflexivity. }
  exists ([Stdout (msg_processing file_path)] ++ evs). rewrite H.
  unfold st1. cbn [snd]. rewrite <- app_assoc.
  split; [reflexivity|discriminate].
Qed.

Lemma process_files_log bibfiles output_dir : forall st,
  match process_files bibfiles output_dir st with
  | (Ok _, st') =>
      exists evs,
        snd st' = snd st ++ evs /\ (length bibfiles <= length evs)%nat
  | (Raise _, st') => exists evs, snd st' = snd st ++ evs
  end.
Proof.
  induction bibfiles as [|p ps IH]; intros st.
  - exists []. rewrite app_nil_r. split; [reflexivity|simpl; lia].
  - rewrite process_files_cons.
    destruct (process_bib_file_prints p output_dir st) as (evs1 & H1 & Hne).
    unfold log_after in H1.
    destruct (process_bib_file p output_dir st) as [[[]|x] st1];
      cbn [fst snd] in *; [|eauto].
    specialize (IH st1).
    destruct (process_files ps output_dir st1) as [[u|x] st2].
    + destruct IH as (evs2 & H2 & Hlen). exists (evs1 ++ evs2).
      rewrite H2, H1, <- app_assoc. split; [reflexivity|].
      rewrite length_app. destruct evs1; [exfalso; apply Hne; reflexivity|].
      simpl. lia.
    + destruct IH as (evs2 & H2). exists (evs1 ++ evs2).
      rewrite H2, H1, <- app_assoc. reflexivity.
Qed.

(** [main] when the output directory does not exist. *)
Lemma main_no_dir bibfiles output_dir st :
  path_exists (fst st) output_dir = false ->
  main bibfiles output_dir st =
    match makedirs (fst st) output_dir with
    | (w, Some x) => (Raise x, (w, snd st))
    | (w, None) =>
        match print (msg_dir_created output_dir) (w, snd st) with
        | (Ok _, st0) =>
            bind (process_files bibfiles output_dir)
              (fun _ => print msg_complete) st0
        | (Raise x, st0) => (Raise x, st0)
        end
    end.
Proof.
  intros Hex. unfold main, bind at 1 2, do_exists. cbn [fst snd]. rewrite Hex.
  cbn [negb]. unfold bind at 1, do_makedirs.
  destruct (makedirs (fst st) output_dir) as [w [x|]]; [reflexivity|].
  destruct (print (msg_dir_created output_dir) (w, snd st)) as [[u|x] st0];
    reflexivity.
Qed.

(** X15. [main] creates the output directory when it does not exist. A
    failure of [os.makedirs] is not caught: [main] raises it, without a
    line of output and without looking at any input file. When the
    directory is created, [main] says so and goes on as it does with a
    directory that exists; when the line that says so cannot be
    printed, [main] raises with the directory created and no input file
    looked at. *)
Theorem main_output_directory :
  (forall output_dir,
     msg_dir_created output_dir =
       lit "--- " ++ [0x1F4C2] ++ lit " Output directory created: "
       ++ output_dir ++ lit " ---")
  /\ (forall bibfiles output_dir st w x,
        path_exists (fst st) output_dir = false ->
        makedirs (fst st) output_dir = (w, Some x) ->
        main bibfiles output_dir st = (Raise x, (w, snd st)))
  /\ (forall bibfiles output_dir st w,
        path_exists (fst st) output_dir = false ->
        makedirs (fst st) output_dir = (w, None) ->
        print_raises w (Stdout (msg_dir_created output_dir)) = None ->
        main bibfiles output_dir st =
          bind (process_files bibfiles output_dir) (fun _ => print msg_complete)
            (w, snd st ++ [Stdout (msg_dir_created output_dir)]))
  /\ (forall bibfiles output_dir st w x,
        path_exists (fst st) output_dir = false ->
        makedirs (fst st) output_dir = (w, None) ->
        print_raises w (Stdout (msg_dir_created output_dir)) = Some x ->
        main bibfiles output_dir st = (Raise x, (w, snd st)))
  /\ (forall bibfiles output_dir st,
        path_exists (fst st) output_dir = true ->
        main bibfiles output_dir st =
          bind (process_files bibfiles output_dir) (fun _ => print msg_complete) st).
Proof.
  split; [reflexivity|]. split; [|split; [|split]].
  - intros bibfiles output_dir st w x Hex Hmk.
    rewrite (main_no_dir _ _ _ Hex), Hmk. reflexivity.
  - intros bibfiles output_dir st w Hex Hmk Hp.
    rewrite (main_no_dir _ _ _ Hex), Hmk. unfold print at 1.
    rewrite emit_ok by exact Hp. reflexivity.
  - intros bibfiles output_dir st w x Hex Hmk Hp.
    rewrite (main_no_dir _ _ _ Hex), Hmk. unfold print at 1.
    rewrite (emit_raise _ _ x) by exact Hp. reflexivity.
  - intros bibfiles output_dir st Hex. apply main_eq, Hex.
Qed.

(** X16. [main] only adds lines to the output, also when it raises.
    When it returns, it has added at least one line for every input
    file and then its closing line, which comes last. *)
Theorem main_prints :
  forall bibfiles output_dir st,
    match main bibfiles output_dir st with
    | (Ok _, st') =>
        exists evs,
          snd st' = snd st ++ evs ++ [Stdout msg_complete]
          /\ (length bibfiles <= length evs)%nat
    | (Raise _, st') => exists evs, snd st' = snd st ++ evs
    end.
Proof.
  intros bibfiles output_dir st.
  assert (forall st0 pre,
            snd st0 = snd st ++ pre ->
            match bind (process_files bibfiles output_dir)
                    (fun _ => print msg_complete) st0 with
            | (Ok _, st') =>
                exists evs,
                  snd st' = snd st ++ evs ++ [Stdout msg_complete]
                  /\ (length bibfiles <= length evs)%nat
            | (Raise _, st') => exists evs, snd st' = snd st ++ evs
            end) as Hrun.
  { intros st0 pre Hpre. unfold bind.
    pose proof (process_files_log bibfiles output_dir st0) as Hlog.
    destruct (process_files bibfiles output_dir st0) as [[u|x] st1].
    - destruct Hlog as (evs & H1 & Hlen). unfold print.
      pose proof (emit_cases (Stdout msg_complete) st1) as Hc.
      destruct (emit (Stdout msg_complete) st1) as [[u'|x] st2].
      + destruct Hc as [-> _]. exists (pre ++ evs). cbn [snd].
        rewrite H1, Hpre, <- !app_assoc. split; [reflexivity|].
        rewrite length_app. lia.
      + destruct Hc as [-> _]. exists (pre ++ evs).
        rewrite H1, Hpre, <- app_assoc. reflexivity.
    - destruct Hlog as (evs & H1). exists (pre ++ evs).
      rewrite H1, Hpre, <- app_assoc. reflexivity. }
  destruct (path_exists (fst st) output_dir) eqn:Hex.
  - rewrite (main_eq _ _ _ Hex). apply (Hrun st []). rewrite app_nil_r.
    reflexivity.
  - rewrite (main_no_dir _ _ _ Hex).
    destruct (makedirs (fst st) output_dir) as [w [x|]].
    { exists []. rewrite app_nil_r. reflexivity. }
    unfold print at 1.
    pose proof (emit_cases (Stdout (msg_dir_created output_dir)) (w, snd st)) as Hc.
    destruct (emit (Stdout (msg_dir_created output_dir)) (w, snd st))
      as [[u|x] st0].
    + destruct Hc as [-> _]. apply (Hrun _ [Stdout (msg_dir_created output_dir)]).
      reflexivity.
    + destruct Hc as [-> _]. exists []. rewrite app_nil_r. reflexivity.
Qed.

End RunFacts.

Lemma process_bib_file_without_entries_witness :
  @process_bib_file ascii_case Mem.env Runs.refs Runs.notes
    (Runs.start MoreRuns.fs_empty)
  = (Ok tt,
     (MoreRuns.fs_empty,
      [Stdout (msg_processing Runs.refs); Stdout (msg_no_entries Runs.refs)])).
Proof.
  destruct (@process_bib_file_without_entries ascii_case Mem.env
              Runs.refs Runs.notes (Runs.start MoreRuns.fs_empty)) as (_ & _ & H).
  - right. right. vm_compute. reflexivity.
  - apply H; vm_compute; reflexivity.
Defined.

Lemma main_output_directory_witness :
  @main ascii_case MemRO.env [Runs.refs] Runs.notes (MoreRuns.fs_no_dir, [])
    = (Raise (OSError (lit "[Errno 13] Permission denied")),
       (MoreRuns.fs_no_dir, []))
  /\ log_after (@main ascii_case Mem.env [Runs.refs] Runs.notes
                  (Runs.start MoreRuns.fs_no_dir))
     = [Stdout (msg_dir_created Runs.notes);
        Stdout (msg_processing Runs.refs);
        Stdout (msg_created (lit "notes/First (a).md"));
        Stdout msg_complete]
  /\ @main ascii_case AsciiOut.env [Runs.refs] Runs.notes (MoreRuns.fs_no_dir, [])
     = (Raise (OtherError (lit "'ascii' codec can't encode character")),
        (<[ Runs.notes := Mem.Dir ]> MoreRuns.fs_no_dir, [])).
Proof.
  split; [|split].
  - apply (proj1 (proj2 (@main_output_directory ascii_case MemRO.env)));
      vm_compute; reflexivity.
  - rewrite (proj1 (proj2 (proj2 (@main_output_directory ascii_case Mem.env)))
               [Runs.refs] Runs.notes (Runs.start MoreRuns.fs_no_dir)
               (<[ Runs.notes := Mem.Dir ]> MoreRuns.fs_no_dir));
      vm_compute; reflexivity.
  - apply (proj1 (proj2 (proj2 (proj2
             (@main_output_directory ascii_case AsciiOut.env)))));
      vm_compute; reflexivity.
Defined.

(** X18. A title made of illegal characters and whitespace only (the
    empty title too) is sanitized to the empty string, so that the file
    name of its note is the identifier between [" ("] and [").md"], with
    the space in front. *)
Theorem sanitize_filename_empty :
  forall f,
    forallb (fun c => isspace c || Re.one_of illegal_chars c) (title f) = true ->
    sanitize_filename (title f) = []
    /\ file_name f = lit " (" ++ bib_key f ++ lit ").md".
Proof.
  intros f H.
  assert (sanitize_filename (title f) = []) as Hs.
  { rewrite sanitize_filename_eq. apply strip_blank. unfold blank.
    rewrite forallb_forall in *. intros c Hc. apply firstn_incl in Hc.
    pose proof (without_clean _ _ _ Hc) as Hclean.
    specialize (H c (without_incl _ _ _ Hc)). rewrite Hclean, orb_false_r in H.
    exact H. }
  split; [exact Hs|]. unfold file_name. rewrite Hs. reflexivity.
Qed.

Lemma sanitize_filename_empty_witness :
  file_name
    {| bib_key := lit "k"; title := lit " ?: "; journal := []; doi := [];
       url := []; year := []; tags := []; author_list := [];
       authors_body_formatted := []; abstract := [] |}
  = lit " (k).md".
Proof.
  apply (sanitize_filename_empty
           {| bib_key := lit "k"; title := lit " ?: "; journal := []; doi := [];
              url := []; year := []; tags := []; author_list := [];
              authors_body_formatted := []; abstract := [] |}).
  vm_compute. reflexivity.
Defined.
